(** * The background-service supervisor of [web/lib/service.py]

    A shallow embedding of [Holdoff], [WaitableHoldoff], [Service] and
    [ServiceManager], and the properties of the supervisor stated in the
    specification.

    Conventions of the embedding.
    - Time is an integer number of microseconds ([datetime] has that
      resolution); [datetime.now()] is a clock reading handed in by the
      caller, one argument per read.  [total_seconds()] only matters through
      its sign, which the integer difference has too.
    - A Python object with mutable attributes is a record passed through the
      functions that mutate it.
    - [raise] and blocking calls are outcomes: a computation returns, raises
      an exception, or is still blocked when the observed environment ends.
    - What other threads do is an explicit argument: the clock, a signal
      arriving during a blocking wait, and the attribute writes made by other
      threads while the caller sleeps. *)

From Stdlib Require Import ZArith List String Bool Lia.
Import ListNotations.
Open Scope Z_scope.

(* ------------------------------------------------------------------ *)
(** ** Exceptions *)

(** The exception classes the module raises, catches or lets through.
    An exception value is identified with its class. *)
Inductive Exc : Type :=
  | BaseException
  | Exception
  | KeyboardInterrupt
  | SystemExit
  | AssertionError
  | LookupError
  | KeyError
  | ValueError
  | RuntimeError
  | OSError
  | TimeoutError
  | EOFError
  | ServiceError
  | ServiceStoppedError
  | ServiceSignal
  | ServiceRestartSignal
  | UserError (tag : nat).

(** The direct base class.  [UserError n] stands for any other class a worker
    derives from [Exception]. *)
Definition base (c : Exc) : option Exc :=
  match c with
  | BaseException => None
  | Exception => Some BaseException
  | KeyboardInterrupt => Some BaseException
  | SystemExit => Some BaseException
  | AssertionError => Some Exception
  | LookupError => Some Exception
  | KeyError => Some LookupError
  | ValueError => Some Exception
  | RuntimeError => Some Exception
  | OSError => Some Exception
  | TimeoutError => Some OSError
  | EOFError => Some Exception
  | ServiceError => Some Exception
  | ServiceStoppedError => Some ServiceError
  | ServiceSignal => Some Exception
  | ServiceRestartSignal => Some ServiceSignal
  | UserError _ => Some Exception
  end.

Definition exc_eqb (a b : Exc) : bool :=
  match a, b with
  | BaseException, BaseException => true
  | Exception, Exception => true
  | KeyboardInterrupt, KeyboardInterrupt => true
  | SystemExit, SystemExit => true
  | AssertionError, AssertionError => true
  | LookupError, LookupError => true
  | KeyError, KeyError => true
  | ValueError, ValueError => true
  | RuntimeError, RuntimeError => true
  | OSError, OSError => true
  | TimeoutError, TimeoutError => true
  | EOFError, EOFError => true
  | ServiceError, ServiceError => true
  | ServiceStoppedError, ServiceStoppedError => true
  | ServiceSignal, ServiceSignal => true
  | ServiceRestartSignal, ServiceRestartSignal => true
  | UserError n, UserError m => Nat.eqb n m
  | _, _ => false
  end.

(** [issubclass]: walk up the chain of bases; the hierarchy is four deep. *)
Fixpoint issubclass_upto (depth : nat) (c d : Exc) : bool :=
  exc_eqb c d ||
  match depth with
  | O => false
  | S k => match base c with
           | Some b => issubclass_upto k b d
           | None => false
           end
  end.

Definition isinstance (e cls : Exc) : bool := issubclass_upto 4 e cls.

(* ------------------------------------------------------------------ *)
(** ** Computations over a mutable object *)

Inductive Outcome (A : Type) : Type :=
  | Ret (a : A)          (* the call returned [a] *)
  | Raise (e : Exc)      (* the call raised [e] *)
  | Blocked.             (* the call had not returned when the environment ended *)
Arguments Ret {A} a.
Arguments Raise {A} e.
Arguments Blocked {A}.

(** A method of an object of state [St]. *)
Definition Prog (St A : Type) : Type := St -> Outcome A * St.

Definition ret {St A} (a : A) : Prog St A := fun s => (Ret a, s).

Definition bind {St A B} (m : Prog St A) (k : A -> Prog St B) : Prog St B :=
  fun s =>
    match m s with
    | (Ret a, s1) => k a s1
    | (Raise e, s1) => (Raise e, s1)
    | (Blocked, s1) => (Blocked, s1)
    end.

Definition raise {St A} (e : Exc) : Prog St A := fun s => (Raise e, s).
Definition blocked {St A} : Prog St A := fun s => (Blocked, s).
Definition read {St} : Prog St St := fun s => (Ret s, s).
Definition modify {St} (f : St -> St) : Prog St unit := fun s => (Ret tt, f s).

Declare Scope prog_scope.
Delimit Scope prog_scope with prog.
Notation "x <- m ;; k" := (bind m (fun x => k))
  (at level 100, m at next level, right associativity) : prog_scope.
Notation "m ;; k" := (bind m (fun _ => k))
  (at level 100, right associativity) : prog_scope.
Open Scope prog_scope.

(** [try: body / except cls: handler(E)]; other exceptions pass through. *)
Definition try_except {St A} (body : Prog St A) (cls : Exc)
    (handler : Exc -> Prog St A) : Prog St A :=
  fun s =>
    match body s with
    | (Raise e, s1) => if isinstance e cls then handler e s1 else (Raise e, s1)
    | r => r
    end.

(** [try: body / finally: cleanup].  The cleanup runs on return and on
    raise; an exception of the cleanup replaces the pending one. *)
Definition try_finally {St A} (body : Prog St A) (cleanup : Prog St unit)
    : Prog St A :=
  fun s =>
    match body s with
    | (Ret a, s1) => (_ <- cleanup ;; ret a) s1
    | (Raise e, s1) => (_ <- cleanup ;; raise e) s1
    | (Blocked, s1) => (Blocked, s1)
    end.

(** [for x in xs: body(x)] *)
Fixpoint for_each {St A} (xs : list A) (body : A -> Prog St unit)
    : Prog St unit :=
  match xs with
  | [] => ret tt
  | x :: rest => body x ;; for_each rest body
  end.

(* ------------------------------------------------------------------ *)
(** ** Holdoff and WaitableHoldoff *)

(** Microseconds in [n] tenths of a second. *)
Definition tenths (n : Z) : Z := n * 100000.
Definition seconds (n : Z) : Z := n * 1000000.

Module Holdoff.

Record t : Type := mk { deadline : Z }.

(** [Holdoff.__init__] *)
Definition init (now : Z) : t := mk now.

(** [Holdoff.reset]: [if delay:] is false for [None] and for zero. *)
Definition reset (now : Z) (delay : option Z) (h : t) : t :=
  match delay with
  | Some d => if d =? 0 then mk now else mk (now + d)
  | None => mk now
  end.

Definition remaining (now : Z) (h : t) : Z := deadline h - now.

Definition passed (now : Z) (h : t) : bool := remaining now h <? 0.

End Holdoff.

(** What the environment contributes to one call of [wait]:
    the clock read by [remaining], the signal that [Event.wait] sees, and
    the clock read by [passed] after waking. *)
Record WaitEnv : Type := mkWaitEnv {
  t_call : Z;
  (* [Some ts]: the flag is set by a [signal()] issued at clock [ts],
     pending from before the call or arriving within the timeout;
     [None]: no [signal()] comes before the timeout. *)
  signal_at : option Z;
  t_wake : Z
}.

Module WaitableHoldoff.

(** [Holdoff] with the [threading.Event] flag. *)
Record t : Type := mk { deadline : Z; _event : bool }.

Definition init (now : Z) : t := mk now false.

Definition reset (now : Z) (delay : option Z) (h : t) : t :=
  match delay with
  | Some d => if d =? 0 then mk now (_event h) else mk (now + d) (_event h)
  | None => mk now (_event h)
  end.

Definition remaining (now : Z) (h : t) : Z := deadline h - now.

Definition passed (now : Z) (h : t) : bool := remaining now h <? 0.

(** [self._event.clear()] *)
Definition clear (h : t) : t := mk (deadline h) false.

(** [signal] *)
Definition signal (h : t) : t := mk (deadline h) true.

(** [self._event.wait(rem)]: true when the flag is set already or gets set
    before the timeout. *)
Definition Event_wait (e : WaitEnv) (h : t) : bool :=
  _event h || match signal_at e with Some _ => true | None => false end.

(** [wait] *)
Definition wait (e : WaitEnv) (h : t) : bool * t :=
  let rem := remaining (t_call e) h in
  if rem <? 0 then (true, clear h)
  else if Event_wait e h then
    let h1 := clear h in (passed (t_wake e) h1, h1)
  else (true, h).

(** The environment of a call is coherent with the object when a flag that
    is already set is accounted for by [signal_at], and the clock does not
    run backwards from the signal to the waking: the signal is issued no
    later than the waker reads the clock. *)
Definition coherent (e : WaitEnv) (h : t) : bool :=
  (negb (_event h) || match signal_at e with Some _ => true | None => false end)
  && match signal_at e with Some ts => ts <=? t_wake e | None => true end.

(** One step of a history of an object: a reschedule or a wait. *)
Inductive Op : Type :=
  | OReset (now : Z) (delay : option Z)
  | OWait (e : WaitEnv).

(** Run a history; collect what the waits returned. *)
Fixpoint run_ops (ops : list Op) (h : t) : list bool * t :=
  match ops with
  | [] => ([], h)
  | OReset now d :: rest => run_ops rest (reset now d h)
  | OWait e :: rest =>
      let (r, h1) := wait e h in
      let (rs, h2) := run_ops rest h1 in
      (r :: rs, h2)
  end.

(** No [signal()] is issued during the history. *)
Definition quiet (op : Op) : bool :=
  match op with
  | OReset _ _ => true
  | OWait e => match signal_at e with Some _ => false | None => true end
  end.

End WaitableHoldoff.

(** [try: body / except c1: h1 / except c2: h2 ...]: the first clause whose
    class matches handles the exception. *)
Fixpoint dispatch {St A} (clauses : list (Exc * (Exc -> Prog St A)))
    (e : Exc) : Prog St A :=
  match clauses with
  | [] => raise e
  | (cls, handler) :: rest =>
      if isinstance e cls then handler e else dispatch rest e
  end.

Definition try_excepts {St A} (body : Prog St A)
    (clauses : list (Exc * (Exc -> Prog St A))) : Prog St A :=
  fun s =>
    match body s with
    | (Raise e, s1) => dispatch clauses e s1
    | r => r
    end.

(** [try: body / except cls as E: handler / else: orelse]; the [else] suite
    runs outside the protection of the [except]. *)
Definition try_except_else {St A} (body : Prog St unit) (cls : Exc)
    (handler : Exc -> Prog St A) (orelse : Prog St A) : Prog St A :=
  fun s =>
    match body s with
    | (Ret _, s1) => orelse s1
    | (Raise e, s1) => if isinstance e cls then handler e s1 else (Raise e, s1)
    | (Blocked, s1) => (Blocked, s1)
    end.

(* ------------------------------------------------------------------ *)
(** ** Service *)

Inductive RunState : Type := Starting | Running | Idle | Stopping | Stopped.

Definition RunState_eqb (a b : RunState) : bool :=
  match a, b with
  | Starting, Starting | Running, Running | Idle, Idle
  | Stopping, Stopping | Stopped, Stopped => true
  | _, _ => false
  end.

Module Service.

(** The attributes the supervisor reads and writes.  [handlers], [app] and
    [daemon] play no part in scheduling and are left out; [alive] is the
    liveness of the thread the constructor starts. *)
Record t : Type := mk {
  running : bool;
  deadline : option Z;
  state : RunState;
  wanted : bool;
  _event : WaitableHoldoff.t;
  _shutdown : bool;
  alive : bool
}.

(** [Service.__init__] *)
Definition init (now : Z) : t :=
  mk true None Stopped false (WaitableHoldoff.init now) false true.

Definition set_running (b : bool) (s : t) : t :=
  mk b (deadline s) (state s) (wanted s) (_event s) (_shutdown s) (alive s).
Definition set_state (st : RunState) (s : t) : t :=
  mk (running s) (deadline s) st (wanted s) (_event s) (_shutdown s) (alive s).
Definition set_wanted (b : bool) (s : t) : t :=
  mk (running s) (deadline s) (state s) b (_event s) (_shutdown s) (alive s).
Definition set_event (h : WaitableHoldoff.t) (s : t) : t :=
  mk (running s) (deadline s) (state s) (wanted s) h (_shutdown s) (alive s).
Definition set_shutdown (b : bool) (s : t) : t :=
  mk (running s) (deadline s) (state s) (wanted s) (_event s) b (alive s).
Definition set_alive (b : bool) (s : t) : t :=
  mk (running s) (deadline s) (state s) (wanted s) (_event s) (_shutdown s) b.

(** [self._event.reset(delay)], [self._event.signal()] *)
Definition reset_event (now : Z) (delay : option Z) (s : t) : t :=
  set_event (WaitableHoldoff.reset now delay (_event s)) s.
Definition signal_event (s : t) : t :=
  set_event (WaitableHoldoff.signal (_event s)) s.

(** [self._event.wait()] in the thread that owns the object. *)
Definition wait_event (e : WaitEnv) : Prog t bool :=
  fun s =>
    let (r, h) := WaitableHoldoff.wait e (_event s) in
    (Ret r, set_event h s).

(** [start] *)
Definition start (s : t) : t := signal_event (set_wanted true s).

(** [stop] *)
Definition stop (s : t) : t :=
  signal_event (set_shutdown true (set_wanted false s)).

(** An attribute write made by another thread. *)
Inductive Write : Type :=
  | WRunning (b : bool)
  | WState (st : RunState)
  | WWanted (b : bool)
  | WShutdown (b : bool)
  | WAlive (b : bool)
  | WSignal
  | WClear
  | WDeadline (d : Z).

Definition apply_write (s : t) (w : Write) : t :=
  match w with
  | WRunning b => set_running b s
  | WState st => set_state st s
  | WWanted b => set_wanted b s
  | WShutdown b => set_shutdown b s
  | WAlive b => set_alive b s
  | WSignal => signal_event s
  | WClear => set_event (WaitableHoldoff.clear (_event s)) s
  | WDeadline d =>
      set_event (WaitableHoldoff.mk d (WaitableHoldoff._event (_event s))) s
  end.

Definition apply_writes (ws : list Write) (s : t) : t :=
  fold_left apply_write ws s.

(* -------------------------------------------------------------- *)
(** *** The service thread *)

(** The hooks a concrete service overrides. *)
Class Worker : Type := {
  worker_init : Prog t unit;
  worker_start : Prog t unit;
  worker_run : Z -> Prog t unit;
  worker_stop : Prog t unit
}.

(** The hooks of the base class: [pass]. *)
Definition BaseWorker : Worker := {|
  worker_init := ret tt;
  worker_start := ret tt;
  worker_run := fun _ => ret tt;
  worker_stop := ret tt
|}.

Section Thread.
Context {W : Worker}.

(** [_attempt_start]; [now] is the clock [reset] reads.  The three
    logging branches of the [wanted] case differ in the log only. *)
Definition _attempt_start (now : Z) : Prog t unit :=
  try_except_else worker_start Exception
    (fun E =>
       s <- read ;;
       if wanted s
       then modify (reset_event now (Some (seconds 1)))
       else modify (set_state Stopped))
    (modify (set_state Running)).

(** [_attempt_run]; [t1] is read by the reset in the [try], [t2] by
    the reset of the handler. *)
Definition _attempt_run (t1 t2 : Z) : Prog t unit :=
  try_excepts
    (modify (reset_event t1 (Some (tenths 1))) ;;
     worker_run (tenths 1))
    [ (ServiceRestartSignal,
       fun _ => modify (set_state Stopping) ;;
                modify (reset_event t2 (Some (seconds 1))));
      (Exception,
       fun _ => modify (set_state Stopping) ;;
                modify (reset_event t2 None)) ].

(** [_attempt_stop] *)
Definition _attempt_stop (now : Z) : Prog t unit :=
  try_except_else worker_stop Exception
    (fun E => modify (reset_event now (Some (seconds 1))))
    (modify (set_state Stopped)).

(** What the environment contributes to one turn of the loop. *)
Record IterEnv : Type := mkIterEnv {
  ext : list Write;     (* writes by other threads since the last turn *)
  i_wait : WaitEnv;     (* for the [wait] of this turn *)
  t1 : Z;               (* clock of the first reset of this turn *)
  t2 : Z                (* clock of the reset in a handler of [_attempt_run] *)
}.

(** The body of [while self.running:], the [match self.state]. *)
Definition run_iter (e : IterEnv) : Prog t unit :=
  s <- read ;;
  match state s with
  | Starting =>
      due <- wait_event (i_wait e) ;;
      if due then _attempt_start (t1 e)
      else modify (reset_event (t1 e) (Some (seconds 1)))
  | Running =>
      if wanted s then _attempt_run (t1 e) (t2 e)
      else modify (set_state Idle) ;;
           modify (reset_event (t1 e) (Some (seconds 5)))
  | Idle =>
      stopping <- (if _shutdown s then ret true
                   else wait_event (i_wait e)) ;;
      if stopping
      then modify (set_state Stopping) ;;
           modify (reset_event (t1 e) None)
      else
        s1 <- read ;;
        if wanted s1 then modify (set_state Running) else ret tt
  | Stopping =>
      due <- wait_event (i_wait e) ;;
      if due then _attempt_stop (t1 e)
      else modify (reset_event (t1 e) (Some (seconds 1)))
  | Stopped =>
      _ <- wait_event (i_wait e) ;;
      s1 <- read ;;
      if wanted s1 then modify (set_state Starting)
      else modify (reset_event (t1 e) (Some (seconds 10)))
  end.

(** [while self.running: ...]; the loop is still going when the
    observed environment ends. *)
Fixpoint run_loop (envs : list IterEnv) : Prog t unit :=
  match envs with
  | [] => s <- read ;; if running s then blocked else ret tt
  | e :: rest =>
      modify (apply_writes (ext e)) ;;
      s <- read ;;
      if running s then run_iter e ;; run_loop rest else ret tt
  end.

(** [run]; the thread is no longer alive once [run] is left, by return
    or by an exception. *)
Definition run (envs : list IterEnv) : Prog t unit :=
  try_finally (worker_init ;; run_loop envs) (modify (set_alive false)).

End Thread.

(* -------------------------------------------------------------- *)
(** *** Calls from other threads *)

(** One blocking wait of a caller: the clock of the reset, the wait, and
    what other threads (the service thread among them) wrote meanwhile. *)
Record Poll : Type := mkPoll {
  t_reset : Z;
  p_wait : WaitEnv;
  during : list Write
}.

(** A caller: the object, and the environment of the waits to come. *)
Definition Caller : Type := (t * list Poll)%type.

Definition self : Prog Caller t := fun c => (Ret (fst c), c).
Definition update (f : t -> t) : Prog Caller unit :=
  fun c => (Ret tt, (f (fst c), snd c)).

Definition truthy (timeout : option Z) : bool :=
  match timeout with Some d => negb (d =? 0) | None => false end.

(** [idle] *)
Definition idle (timeout : option Z) : Prog Caller bool :=
  fun c =>
    match snd c with
    | [] => (Blocked, c)
    | p :: rest =>
        let s1 := if truthy timeout
                  then reset_event (t_reset p) timeout (fst c)
                  else fst c in
        let (r, h) := WaitableHoldoff.wait (p_wait p) (_event s1) in
        (Ret r, (apply_writes (during p) (set_event h s1), rest))
    end.

(** [await_ready]: [while True:] unrolled as often as there are waits. *)
Fixpoint await_ready_loop (fuel : nat) : Prog Caller bool :=
  match fuel with
  | O => blocked
  | S n =>
      s <- self ;;
      if negb (running s && wanted s) then raise ServiceStoppedError
      else if RunState_eqb (state s) Running then ret true
      else _ <- idle (Some (tenths 4)) ;; await_ready_loop n
  end.

Definition await_ready : Prog Caller bool :=
  fun c => await_ready_loop (S (List.length (snd c))) c.

(** [await_stopped] *)
Fixpoint await_stopped_loop (fuel : nat) : Prog Caller bool :=
  match fuel with
  | O => blocked
  | S n =>
      s <- self ;;
      if wanted s then ret false
      else if RunState_eqb (state s) Stopped then ret true
      else _ <- idle (Some (tenths 4)) ;; await_stopped_loop n
  end.

Definition await_stopped : Prog Caller bool :=
  fun c => await_stopped_loop (S (List.length (snd c))) c.

(** The wait of [Thread.join]: it is over once the thread has left [run]. *)
Fixpoint join_loop (fuel : nat) : Prog Caller unit :=
  match fuel with
  | O => blocked
  | S n =>
      s <- self ;;
      if alive s then
        fun c => match snd c with
                 | [] => (Blocked, c)
                 | p :: rest =>
                     join_loop n (apply_writes (during p) (fst c), rest)
                 end
      else ret tt
  end.

(** [Thread.join].  [own] tells that the caller is the thread of the
    service itself; [join] refuses that with a [RuntimeError], and waits
    otherwise. *)
Definition join (own : bool) : Prog Caller unit :=
  if own then raise RuntimeError
  else fun c => join_loop (S (List.length (snd c))) c.

(** [restart] *)
Definition restart : Prog Caller unit :=
  s <- self ;;
  let was_wanted := wanted s in
  update stop ;;
  _ <- await_stopped ;;
  if was_wanted then update start ;; _ <- await_ready ;; ret tt
  else ret tt.

(** [shutdown]; [own] as for [join]. *)
Definition shutdown (own : bool) : Prog Caller unit :=
  s <- self ;;
  (if negb (RunState_eqb (state s) Stopped)
   then update stop ;; _ <- await_stopped ;; ret tt
   else ret tt) ;;
  update (set_running false) ;;
  update signal_event ;;
  join own.

(** The service as a caller finds it at the check that follows the waits
    [pre], when every earlier check of [await_ready] went on to wait. *)
Fixpoint polling (pre : list Poll) (s : t) : option t :=
  match pre with
  | [] => Some s
  | p :: rest =>
      if negb (running s && wanted s) then None
      else if RunState_eqb (state s) Running then None
      else match idle (Some (tenths 4)) (s, [p]) with
           | (Ret _, (s1, _)) => polling rest s1
           | _ => None
           end
  end.

End Service.

(* ------------------------------------------------------------------ *)
(** ** Dictionaries *)

(** A [dict] with [str] keys: the items in insertion order. *)
Module PyDict.

Definition t (V : Type) : Type := list (string * V).

Definition empty {V} : t V := [].

(** [d[k]], [None] standing for [KeyError] *)
Fixpoint get {V} (k : string) (d : t V) : option V :=
  match d with
  | [] => None
  | (k', v) :: rest => if String.eqb k k' then Some v else get k rest
  end.

(** [k in d] *)
Definition contains {V} (k : string) (d : t V) : bool :=
  match get k d with Some _ => true | None => false end.

(** [d[k] = v]: an existing key keeps its place, a new one goes last. *)
Fixpoint set {V} (k : string) (v : V) (d : t V) : t V :=
  match d with
  | [] => [(k, v)]
  | (k', v') :: rest =>
      if String.eqb k k' then (k', v) :: rest else (k', v') :: set k v rest
  end.

(** [del d[k]] *)
Fixpoint del {V} (k : string) (d : t V) : t V :=
  match d with
  | [] => []
  | (k', v') :: rest =>
      if String.eqb k k' then rest else (k', v') :: del k rest
  end.

Definition keys {V} (d : t V) : list string := map fst d.
Definition values {V} (d : t V) : list V := map snd d.

End PyDict.

(* ------------------------------------------------------------------ *)
(** ** ServiceManager *)

(** Service objects live in a heap and are named by their identity. *)
Definition ObjId : Type := nat.
Definition Heap : Type := ObjId -> Service.t.

Definition upd (o : ObjId) (f : Service.t -> Service.t) (h : Heap) : Heap :=
  fun o' => if Nat.eqb o' o then f (h o') else h o'.

(** Writes of other threads to the objects of the heap. *)
Definition interfere (ws : list (ObjId * Service.Write)) (h : Heap) : Heap :=
  fold_left (fun h ow => upd (fst ow) (fun s => Service.apply_write s (snd ow)) h)
            ws h.

(** The environment of one blocking call: the waits of the call on its own
    object, and what happened to the other objects by the time it is over. *)
Record Script : Type := mkScript {
  polls : list Service.Poll;
  elsewhere : list (ObjId * Service.Write)
}.

Definition no_script : Script := mkScript [] [].

Inductive Method : Type :=
  MStart | MStop | MAwaitReady | MAwaitStopped | MShutdown.

(** What the manager does that can be seen from outside, in order: the lines
    of [dump], the two calls of the [trace] module, and the methods it calls
    on services. *)
Inductive Event : Type :=
  | DumpHeader
  | DumpLine (name : string) (ref : Z)
             (running : bool) (state : RunState) (wanted : bool)
  | TraceAllThreads
  | TraceThread (o : ObjId)
  | Call (o : ObjId) (m : Method).

Module ServiceManager.

Record World : Type := mkWorld {
  heap : Heap;
  svcs : PyDict.t ObjId;           (* [self.svcs] *)
  refs : PyDict.t Z;               (* [self.refs] *)
  trace : list Event;
  tape : list Script               (* the blocking calls still to come *)
}.

(** [ServiceManager.__init__] *)
Definition init (h : Heap) (scripts : list Script) : World :=
  mkWorld h PyDict.empty PyDict.empty [] scripts.

Definition set_heap (h : Heap) (w : World) : World :=
  mkWorld h (svcs w) (refs w) (trace w) (tape w).
Definition set_svcs (d : PyDict.t ObjId) (w : World) : World :=
  mkWorld (heap w) d (refs w) (trace w) (tape w).
Definition set_refs (d : PyDict.t Z) (w : World) : World :=
  mkWorld (heap w) (svcs w) d (trace w) (tape w).
Definition emit (ev : Event) (w : World) : World :=
  mkWorld (heap w) (svcs w) (refs w) (trace w ++ [ev]) (tape w).
Definition set_tape (sc : list Script) (w : World) : World :=
  mkWorld (heap w) (svcs w) (refs w) (trace w) sc.

(** A method that does not block: [svc.start()], [svc.stop()]. *)
Definition call_now (o : ObjId) (m : Method) (f : Service.t -> Service.t)
    : Prog World unit :=
  modify (emit (Call o m)) ;;
  modify (fun w => set_heap (upd o f (heap w)) w).

(** A method that may block; it consumes the next script. *)
Definition call {A} (o : ObjId) (m : Method) (f : Prog Service.Caller A)
    : Prog World A :=
  fun w =>
    let sc := hd no_script (tape w) in
    let w1 := emit (Call o m) w in
    let (r, c) := f (heap w1 o, polls sc) in
    (r, set_tape (tl (tape w1))
          (set_heap (interfere (elsewhere sc)
                       (upd o (fun _ => fst c) (heap w1))) w1)).

(** [name in self] *)
Definition contains (name : string) : Prog World bool :=
  w <- read ;; ret (PyDict.contains name (svcs w)).

(** [self.svcs[name]], [self.refs[name]] *)
Definition svcs_getitem (name : string) : Prog World ObjId :=
  w <- read ;;
  match PyDict.get name (svcs w) with
  | Some o => ret o
  | None => raise KeyError
  end.

Definition refs_getitem (name : string) : Prog World Z :=
  w <- read ;;
  match PyDict.get name (refs w) with
  | Some r => ret r
  | None => raise KeyError
  end.

(** [self.refs[name] = v] *)
Definition refs_setitem (name : string) (v : Z) : Prog World unit :=
  modify (fun w => set_refs (PyDict.set name v (refs w)) w).

(** [register] *)
Definition register (name : string) (svc : ObjId) : Prog World unit :=
  taken <- contains name ;;
  if taken then raise KeyError
  else
    modify (fun w => set_svcs (PyDict.set name svc (svcs w)) w) ;;
    refs_setitem name 0.

(** [unregister]; [if self.refs[name]:] is true for any non-zero count. *)
Definition unregister (name : string) : Prog World unit :=
  known <- contains name ;;
  if negb known then raise KeyError
  else
    r <- refs_getitem name ;;
    if negb (r =? 0) then raise ServiceError
    else
      modify (fun w => set_svcs (PyDict.del name (svcs w)) w) ;;
      modify (fun w => set_refs (PyDict.del name (refs w)) w).

(** [put]; a failed [assert] raises [AssertionError]. *)
Definition put (name : string) : Prog World unit :=
  known <- contains name ;;
  if negb known then raise KeyError
  else
    svc <- svcs_getitem name ;;
    r <- refs_getitem name ;;
    if r =? 0 then raise AssertionError
    else
      r0 <- refs_getitem name ;;
      refs_setitem name (r0 - 1) ;;
      r1 <- refs_getitem name ;;
      if r1 =? 0 then call_now svc MStop Service.stop else ret tt.

(** [get] *)
Definition get (name : string) (ready : bool) : Prog World ObjId :=
  known <- contains name ;;
  if negb known then raise KeyError
  else
    svc <- svcs_getitem name ;;
    r0 <- refs_getitem name ;;
    refs_setitem name (r0 + 1) ;;
    r1 <- refs_getitem name ;;
    (if r1 =? 1 then call_now svc MStart Service.start else ret tt) ;;
    (if ready
     then try_except
            (_ <- call svc MAwaitReady Service.await_ready ;; ret tt)
            ServiceError
            (fun e => put name ;; raise e)
     else ret tt) ;;
    ret svc.

(** [borrow], with the block of the [with] statement as [body]. *)
Definition borrow {A} (name : string) (body : ObjId -> Prog World A)
    : Prog World A :=
  svc <- get name true ;;
  try_finally (body svc) (put name).

(** [for name in self.svcs: ...] and [for svc in self.svcs.values(): ...] *)
Definition for_names (body : string -> Prog World unit) : Prog World unit :=
  w <- read ;; for_each (PyDict.keys (svcs w)) body.

Definition for_services (body : ObjId -> Prog World unit) : Prog World unit :=
  w <- read ;; for_each (PyDict.values (svcs w)) body.

(** The body of the loop of [dump]: one line of the log. *)
Definition dump_line (name : string) : Prog World unit :=
  svc <- svcs_getitem name ;;
  ref <- refs_getitem name ;;
  w <- read ;;
  let s := heap w svc in
  modify (emit (DumpLine name ref (Service.running s)
                         (Service.state s) (Service.wanted s))).

(** [dump] *)
Definition dump : Prog World unit :=
  modify (emit DumpHeader) ;;
  for_names dump_line.

(** The bodies of the three loops of [atexit]. *)
Definition stop_unless_stopped (svc : ObjId) : Prog World unit :=
  w <- read ;;
  if negb (RunState_eqb (Service.state (heap w svc)) Stopped)
  then call_now svc MStop Service.stop
  else ret tt.

Definition wait_for (svc : ObjId) : Prog World unit :=
  modify (emit (TraceThread svc)) ;;
  _ <- call svc MAwaitStopped Service.await_stopped ;;
  ret tt.

(** The interpreter runs [atexit] on the main thread, which is the thread
    of no service. *)
Definition clean_up (svc : ObjId) : Prog World unit :=
  call svc MShutdown (Service.shutdown false).

(** [atexit] *)
Definition atexit : Prog World unit :=
  dump ;;
  modify (emit TraceAllThreads) ;;
  for_services stop_unless_stopped ;;
  dump ;;
  for_services wait_for ;;
  dump ;;
  for_services clean_up.

(** A use of the manager by its callers, or a move of the environment. *)
Inductive Op : Type :=
  | ORegister (name : string) (svc : ObjId)
  | OUnregister (name : string)
  | OGet (name : string) (ready : bool)
  | OPut (name : string)
  | OThreads (ws : list (ObjId * Service.Write)).

Definition perform (op : Op) : Prog World unit :=
  match op with
  | ORegister name svc => register name svc
  | OUnregister name => unregister name
  | OGet name ready => _ <- get name ready ;; ret tt
  | OPut name => put name
  | OThreads ws => modify (fun w => set_heap (interfere ws (heap w)) w)
  end.

(** A history of uses; a caller whose call raised or stays blocked does
    not keep the others from going on. *)
Fixpoint perform_all (ops : list Op) (w : World) : World :=
  match ops with
  | [] => w
  | op :: rest => perform_all rest (snd (perform op w))
  end.

(** The count of references of [name]. *)
Definition refcount (name : string) (w : World) : option Z :=
  PyDict.get name (refs w).




End ServiceManager.

(* ------------------------------------------------------------------ *)
(** ** Vocabulary of the statements *)

(** The two maps of the manager agree on their names, and no count is
    negative. *)
Definition consistent (w : ServiceManager.World) : Prop :=
  PyDict.keys (ServiceManager.svcs w) = PyDict.keys (ServiceManager.refs w) /\
  Forall (fun r => 0 <= r) (PyDict.values (ServiceManager.refs w)).

(** The keys after [d[k] = v] and after [del d[k]], from the keys before. *)
Fixpoint add_key (k : string) (ks : list string) : list string :=
  match ks with
  | [] => [k]
  | k' :: rest => if String.eqb k k' then k' :: rest else k' :: add_key k rest
  end.

Fixpoint del_key (k : string) (ks : list string) : list string :=
  match ks with
  | [] => []
  | k' :: rest => if String.eqb k k' then rest else k' :: del_key k rest
  end.

Definition is_dump (ev : Event) : bool :=
  match ev with DumpHeader | DumpLine _ _ _ _ _ => true | _ => false end.

Definition is_join (ev : Event) : bool :=
  match ev with Call _ MShutdown => true | _ => false end.

(** The services [atexit] finds not [Stopped]. *)
Definition not_stopped (h : Heap) (o : ObjId) : bool :=
  negb (RunState_eqb (Service.state (h o)) Stopped).

(** The calls of the three loops of [atexit] when each runs to its end, over
    the services in the order of the dictionary. *)
Definition stops (w : ServiceManager.World) : list Event :=
  map (fun o => Call o MStop)
      (filter (not_stopped (ServiceManager.heap w))
              (PyDict.values (ServiceManager.svcs w))).

Definition awaits (w : ServiceManager.World) : list Event :=
  flat_map (fun o => [TraceThread o; Call o MAwaitStopped])
           (PyDict.values (ServiceManager.svcs w)).

Definition joins (w : ServiceManager.World) : list Event :=
  map (fun o => Call o MShutdown) (PyDict.values (ServiceManager.svcs w)).

(** [w'] is [w] with dump lines added to the trace. *)
Definition dumped (w w' : ServiceManager.World) : Prop :=
  ServiceManager.heap w' = ServiceManager.heap w /\
  ServiceManager.svcs w' = ServiceManager.svcs w /\
  ServiceManager.refs w' = ServiceManager.refs w /\
  ServiceManager.tape w' = ServiceManager.tape w /\
  exists d, ServiceManager.trace w' = ServiceManager.trace w ++ d /\
            forallb is_dump d = true.

(** The registry is as before, and so is the state of every service. *)
Definition settled (w w' : ServiceManager.World) : Prop :=
  ServiceManager.svcs w' = ServiceManager.svcs w /\
  ServiceManager.refs w' = ServiceManager.refs w /\
  forall o, Service.state (ServiceManager.heap w' o)
            = Service.state (ServiceManager.heap w o).

Definition same_registry (w w' : ServiceManager.World) : Prop :=
  ServiceManager.svcs w' = ServiceManager.svcs w /\
  ServiceManager.refs w' = ServiceManager.refs w.

(* ------------------------------------------------------------------ *)
(** ** Sample objects and environments *)

(** A wait armed for clock 1000, and a signal issued at that very reading. *)
Definition armed : WaitableHoldoff.t := WaitableHoldoff.mk 1000 false.
Definition on_the_dot : WaitEnv := mkWaitEnv 990 (Some 1000) 1000.

(** A wait that is overdue at clock 2000, with a signal pending since 1500. *)
Definition overdue : WaitableHoldoff.t := WaitableHoldoff.mk 1000 true.
Definition too_late : WaitEnv := mkWaitEnv 2000 (Some 1500) 2000.

(** An idle, unwanted service whose grace period ends at second 5, and a
    turn of its loop in which a bare signal arrives after one second. *)
Definition idling : Service.t :=
  Service.mk true None Idle false (WaitableHoldoff.mk 5000000 false) false true.
Definition nudge : Service.IterEnv :=
  Service.mkIterEnv [] (mkWaitEnv 0 (Some 1000000) 1000001) 1000002 1000003.

(** A worker all of whose hooks raise. *)
Definition Restarter : Service.Worker := {|
  Service.worker_init := ret tt;
  Service.worker_start := raise TimeoutError;
  Service.worker_run := fun _ => raise ServiceRestartSignal;
  Service.worker_stop := raise (UserError 0)
|}.

(** A worker whose hooks call [sys.exit()]. *)
Definition Exiter : Service.Worker := {|
  Service.worker_init := ret tt;
  Service.worker_start := raise SystemExit;
  Service.worker_run := fun _ => raise SystemExit;
  Service.worker_stop := raise SystemExit
|}.

Definition busy : Service.t :=
  Service.mk true None Running true (WaitableHoldoff.mk 0 false) false true.
Definition tick : Service.IterEnv :=
  Service.mkIterEnv [] (mkWaitEnv 0 None 0) 2000000 2050000.

(** A service that is starting, and a wait during which its thread reaches
    [Running] while a third party withdraws the demand. *)
Definition starting : Service.t :=
  Service.mk true None Starting true (WaitableHoldoff.mk 0 false) false true.
Definition overtaken : Service.Poll :=
  Service.mkPoll 100 (mkWaitEnv 100 None 400100)
                 [Service.WState Running; Service.WWanted false].

(** A manager with one service, ["cam"], without references.  In
    [dead_world] the thread of the service has been told to finish; in
    [live_world] the service is already running. *)
Definition dead_world : ServiceManager.World :=
  ServiceManager.mkWorld (fun _ => Service.set_running false (Service.init 0))
                         [("cam"%string, 7%nat)] [("cam"%string, 0)] [] [].
Definition live_world : ServiceManager.World :=
  ServiceManager.mkWorld (fun _ => Service.set_state Running (Service.init 0))
                         [("cam"%string, 7%nat)] [("cam"%string, 0)] [] [].

(** A block that raises. *)
Definition failing_block (svc : ObjId) : Prog ServiceManager.World unit :=
  raise (UserError 1).

(** A history of uses of a manager. *)
Definition history : list ServiceManager.Op :=
  [ ServiceManager.ORegister "cam" 7%nat;
    ServiceManager.OGet "cam" false;
    ServiceManager.OGet "cam" true;
    ServiceManager.OPut "cam";
    ServiceManager.OUnregister "cam";
    ServiceManager.OPut "cam";
    ServiceManager.OPut "cam" ].

(** Two services at exit: object 0 is stopped, object 1 is running and stops
    during the first wait for it; both threads end when told to. *)
Definition at_exit : ServiceManager.World :=
  ServiceManager.mkWorld
    (fun o => if Nat.eqb o 1 then Service.set_state Running (Service.init 0)
              else Service.init 0)
    [("mqtt"%string, 0%nat); ("video"%string, 1%nat)]
    [("mqtt"%string, 0); ("video"%string, 0)]
    []
    [ mkScript [] [];
      mkScript [Service.mkPoll 10 (mkWaitEnv 10 None 400010)
                               [Service.WState Stopped]] [];
      mkScript [Service.mkPoll 20 (mkWaitEnv 20 None 20) [Service.WAlive false]] [];
      mkScript [Service.mkPoll 30 (mkWaitEnv 30 None 30) [Service.WAlive false]] [] ].

(* ------------------------------------------------------------------ *)
(** ** Further vocabulary *)

(** The delay [reset] adds: none for [None] and for zero. *)
Definition delay_of (delay : option Z) : Z :=
  match delay with Some d => d | None => 0 end.

(** The moves of the state of a service that the loop can make in one turn. *)
Definition edge (a b : RunState) : bool :=
  match a, b with
  | Starting, (Starting | Running | Stopped) => true
  | Running, (Running | Idle | Stopping) => true
  | Idle, (Idle | Running | Stopping) => true
  | Stopping, (Stopping | Stopped) => true
  | Stopped, (Stopped | Starting) => true
  | _, _ => false
  end.

(** A hook [m] leaves the attribute [f] of the service as it found it. *)
Definition keeps {B : Type} (f : Service.t -> B) (m : Prog Service.t unit)
    : Prop :=
  forall s, f (snd (m s)) = f s.

(** All the hooks of a worker do. *)
Definition hooks_keep {B : Type} (W : Service.Worker) (f : Service.t -> B)
    : Prop :=
  keeps f Service.worker_start /\
  (forall timeout, keeps f (Service.worker_run timeout)) /\
  keeps f Service.worker_stop.

(** No write of [ws] takes a shutdown request back. *)
Definition no_unshutdown (ws : list Service.Write) : bool :=
  forallb (fun w => match w with Service.WShutdown false => false | _ => true end)
          ws.




(* ------------------------------------------------------------------ *)
(** ** The handlers of a service: [tap] *)

Module Handlers.

(** A handler is known by its identity: [list.remove] compares with [==],
    which for functions is identity. *)
Definition Handler : Type := nat.

(** What a block under [tap] runs on: the handler list of the service, and
    whatever else the block touches. *)
Record t (R : Type) : Type := mk { handlers : list Handler; rest : R }.
Arguments mk {R} _ _.
Arguments handlers {R} _.
Arguments rest {R} _.

Definition set_handlers {R} (hs : list Handler) (s : t R) : t R :=
  mk hs (rest s).

(** [list.remove(h)] on a list: the first element equal to [h] goes;
    [None] when there is none. *)
Fixpoint remove (h : Handler) (hs : list Handler) : option (list Handler) :=
  match hs with
  | [] => None
  | x :: xs =>
      if Nat.eqb x h then Some xs
      else match remove h xs with
           | Some xs' => Some (x :: xs')
           | None => None
           end
  end.

(** [self.handlers.append(handler)] *)
Definition handlers_append {R} (h : Handler) : Prog (t R) unit :=
  modify (fun s => set_handlers (handlers s ++ [h]) s).

(** [self.handlers.remove(handler)]: a [ValueError] when it is not there. *)
Definition handlers_remove {R} (h : Handler) : Prog (t R) unit :=
  s <- read ;;
  match remove h (handlers s) with
  | Some hs => modify (set_handlers hs)
  | None => raise ValueError
  end.

(** [tap], with the block of the [with] statement as [body]. *)
Definition tap {R A} (h : Handler) (body : Prog (t R) A) : Prog (t R) A :=
  handlers_append h ;;
  try_finally body (handlers_remove h).

End Handlers.

(** A block that leaves the handlers alone, and one that takes its own
    handler off the list. *)
Definition quiet_block : Prog (Handlers.t nat) nat :=
  fun s => (Ret (Handlers.rest s), s).
Definition untapping_block (h : Handlers.Handler) : Prog (Handlers.t nat) nat :=
  Handlers.handlers_remove h ;; raise OSError.

(* ------------------------------------------------------------------ *)
(** ** [ServiceManager.stream] *)

Module Stream.

(** What the tapped handler puts on the queue. *)
Definition Data : Type := nat.

(** How a call of [queue.get()] ends when it ends. *)
Inductive Got : Type :=
  | Item (d : Data)
  | Fails (e : Exc).

(** One turn of the loop of the generator, from outside: what
    [queue.get()] does, whether the consumer closes the generator at the
    [yield] instead of asking for the next item, and what other threads
    wrote to the services while the item was with the consumer. *)
Record Turn : Type := mkTurn {
  got : Got;
  closes : bool;
  meanwhile : list (ObjId * Service.Write)
}.

(** The generator runs on the manager and on the handler list of the
    service it streams from; [yielded] is what it has given out so far. *)
Record Rest : Type := mkRest {
  world : ServiceManager.World;
  yielded : list Data
}.

Definition St : Type := Handlers.t Rest.

Definition manager (s : St) : ServiceManager.World := world (Handlers.rest s).

Definition set_manager (w : ServiceManager.World) (s : St) : St :=
  Handlers.mk (Handlers.handlers s) (mkRest w (yielded (Handlers.rest s))).

(** A method of the manager called from the generator. *)
Definition on_manager {A} (m : Prog ServiceManager.World A) : Prog St A :=
  fun s => let (r, w) := m (manager s) in (r, set_manager w s).

(** [with self.borrow(name) as svc:] around a block of the generator. *)
Definition borrow {A} (name : string) (body : ObjId -> Prog St A)
    : Prog St A :=
  svc <- on_manager (ServiceManager.get name true) ;;
  try_finally (body svc) (on_manager (ServiceManager.put name)).

(** [yield d], as far as the state goes. *)
Definition give (d : Data) : Prog St unit :=
  modify (fun s => Handlers.mk (Handlers.handlers s)
                     (mkRest (manager s) (yielded (Handlers.rest s) ++ [d]))).

Definition others (ws : list (ObjId * Service.Write)) : Prog St unit :=
  modify (fun s => set_manager
                     (ServiceManager.set_heap
                        (interfere ws (ServiceManager.heap (manager s)))
                        (manager s)) s).

(** [while svc.state == RunState.Running: yield queue.get()].  With no turn
    left, [queue.get()] does not return.  [close()] throws [GeneratorExit]
    in at the [yield]; it derives from [BaseException] alone and stands as
    [BaseException] here. *)
Fixpoint pump (svc : ObjId) (turns : list Turn) : Prog St unit :=
  s <- read ;;
  if negb (RunState_eqb
             (Service.state (ServiceManager.heap (manager s) svc)) Running)
  then ret tt
  else
    match turns with
    | [] => fun s => (Blocked, s)
    | tn :: more =>
        match got tn with
        | Fails e => raise e
        | Item d =>
            give d ;;
            if closes tn then raise BaseException
            else others (meanwhile tn) ;; pump svc more
        end
    end.

(** [stream], run until it ends; [h] is the function object of the
    [lambda], and [Queue()] is taken to succeed. *)
Definition stream (name : string) (h : Handlers.Handler) (turns : list Turn)
    : Prog St unit :=
  try_excepts
    (borrow name (fun svc => Handlers.tap h (pump svc turns)))
    [ (EOFError, fun _ => ret tt);
      (OSError, fun _ => ret tt);
      (ServiceStoppedError, fun _ => ret tt) ].

(** The items of the turns. *)
Definition items_of (turns : list Turn) : list Data :=
  flat_map (fun tn => match got tn with Item d => [d] | Fails _ => [] end)
           turns.

End Stream.

(** A consumer that takes two items and closes the stream. *)
Definition two_items : list Stream.Turn :=
  [ Stream.mkTurn (Stream.Item 11%nat) false [];
    Stream.mkTurn (Stream.Item 12%nat) true [];
    Stream.mkTurn (Stream.Item 13%nat) false [] ].

(** A manager with one running service that is ready at once. *)
Definition ready_world : ServiceManager.World :=
  ServiceManager.mkWorld
    (fun _ => Service.set_wanted true (Service.set_state Running (Service.init 0)))
    [("cam"%string, 7%nat)] [("cam"%string, 1)] []
    [ mkScript [] [] ].

(* ------------------------------------------------------------------ *)
(** ** The update notifier: [worker_init] and [worker_run] *)

Module UpdateNotifierService.

(** What the class adds to [Service]: the holdoff of the sampling.  The
    list [sampled] is a ghost: the clocks at which a sample was taken (the
    clock read by the [reset] before it), oldest first. *)
Record t : Type := mk {
  service : Service.Caller;
  holdoff : Holdoff.t;
  sampled : list Z
}.

Definition set_service (c : Service.Caller) (s : t) : t :=
  mk c (holdoff s) (sampled s).
Definition set_holdoff (h : Holdoff.t) (s : t) : t :=
  mk (service s) h (sampled s).
Definition set_sampled (ts : list Z) (s : t) : t :=
  mk (service s) (holdoff s) ts.

(** A method of [Service] called on [self]. *)
Definition on_service {A} (m : Prog Service.Caller A) : Prog t A :=
  fun s => let (r, c) := m (service s) in (r, set_service c s).

(** [worker_init].  [t0] is the clock read by [Holdoff()], [t1] the clock
    read by [reset]; [load] is how reading [stats.json] ends. *)
Definition worker_init (t0 t1 : Z) (load : Outcome unit)
    (c : Service.Caller) : Outcome unit * t :=
  try_except (fun s => (load, s)) OSError (fun _ => ret tt)
    (mk c (Holdoff.reset t1 (Some (seconds 1)) (Holdoff.init t0)) []).

(** What the environment contributes to one call of [worker_run]: the
    service as the call finds it, the clocks read by [passed] and by
    [reset], and how [pstats.append] and [notify] end. *)
Record RunEnv : Type := mkRunEnv {
  found : Service.Caller;
  t_passed : Z;
  t_reset : Z;
  publish : Outcome unit
}.

(** [worker_run] *)
Definition worker_run (e : RunEnv) (timeout : Z) : Prog t unit :=
  s <- read ;;
  (if Holdoff.passed (t_passed e) (holdoff s)
   then modify (fun s => set_holdoff
                           (Holdoff.reset (t_reset e) (Some (seconds 1))
                                          (holdoff s)) s) ;;
        modify (fun s => set_sampled (sampled s ++ [t_reset e]) s) ;;
        (fun s => (publish e, s))
   else ret tt) ;;
  _ <- on_service (Service.idle (Some timeout)) ;;
  ret tt.

(** The calls that the loop of [run] makes one after the other, whatever
    the outcome of each. *)
Fixpoint calls (es : list RunEnv) (s : t) : t :=
  match es with
  | [] => s
  | e :: rest =>
      calls rest (snd (worker_run e (tenths 1) (set_service (found e) s)))
  end.

(** The side of the class that faces the MQTT queue: the handler list of
    the service that [worker_start] got, and the manager [self.app.svc]. *)
Definition Mqtt : Type := Handlers.t ServiceManager.World.

(** A method of [self.app.svc]. *)
Definition on_app_svc {A} (m : Prog ServiceManager.World A) : Prog Mqtt A :=
  fun s => let (r, w) := m (Handlers.rest s) in
           (r, Handlers.mk (Handlers.handlers s) w).

(** [worker_start]; [h] is the bound method [self._handler]. *)
Definition worker_start (h : Handlers.Handler) : Prog Mqtt unit :=
  _ <- on_app_svc (ServiceManager.get "mqttqueue"%string false) ;;
  Handlers.handlers_append h.

(** [worker_stop]; [save] is how writing [stats.json] ends. *)
Definition worker_stop (h : Handlers.Handler) (save : Outcome unit)
    : Prog Mqtt unit :=
  (fun s => (save, s)) ;;
  Handlers.handlers_remove h ;;
  on_app_svc (ServiceManager.put "mqttqueue"%string).

End UpdateNotifierService.

(** The notifier facing a manager with the MQTT queue registered and not
    in use. *)
Definition mqtt_idle : Handlers.t ServiceManager.World :=
  Handlers.mk [5%nat]
    (ServiceManager.mkWorld (fun _ => Service.init 0)
       [("mqttqueue"%string, 2%nat)] [("mqttqueue"%string, 0)] [] []).

(** The clock does not go back: from [t] on, through the readings of the
    calls. *)
Fixpoint clock_order (t : Z) (es : list UpdateNotifierService.RunEnv) : Prop :=
  match es with
  | [] => True
  | e :: rest =>
      t <= UpdateNotifierService.t_passed e /\
      UpdateNotifierService.t_passed e <= UpdateNotifierService.t_reset e /\
      clock_order (UpdateNotifierService.t_reset e) rest
  end.

(** Each clock of [ts] is more than a second after the one before, the
    first after [t]. *)
Fixpoint apart (t : Z) (ts : list Z) : Prop :=
  match ts with
  | [] => True
  | x :: rest => t + seconds 1 < x /\ apart x rest
  end.

(** Four calls, a quarter of a second and more apart; the third one fails
    to publish. *)
Definition four_calls : list UpdateNotifierService.RunEnv :=
  [ UpdateNotifierService.mkRunEnv (idling, []) 900000 900000 (Ret tt);
    UpdateNotifierService.mkRunEnv (idling, []) 1000200 1000300 (Ret tt);
    UpdateNotifierService.mkRunEnv (idling, []) 2000400 2000500 (Raise OSError);
    UpdateNotifierService.mkRunEnv (idling, []) 2500000 2500000 (Ret tt) ].

(* ------------------------------------------------------------------ *)
(** ** The interruptible wait *)

Section WaitFacts.
Import WaitableHoldoff.

Lemma wait_overdue (e : WaitEnv) (h : t) :
  deadline h < t_call e -> wait e h = (true, clear h).
Proof.
  intros H. unfold wait, remaining.
  destruct (deadline h - t_call e <? 0) eqn:E; [reflexivity|].
  apply Z.ltb_ge in E. lia.
Qed.

Lemma wait_quiet (e : WaitEnv) (h : t) :
  _event h = false -> signal_at e = None ->
  fst (wait e h) = true /\ _event (snd (wait e h)) = false.
Proof.
  intros Hf Hs. unfold wait, Event_wait. rewrite Hf, Hs. simpl.
  destruct (remaining (t_call e) h <? 0); simpl; auto.
Qed.

Lemma reset_keeps_flag now d h : _event (reset now d h) = _event h.
Proof. unfold reset. destruct d as [d|]; [destruct (d =? 0)|]; reflexivity. Qed.

(** With the flag clear and no signal issued, every wait of a history runs
    to its deadline. *)
Lemma quiet_history (ops : list Op) : forall h,
  _event h = false -> forallb quiet ops = true ->
  Forall (fun r => r = true) (fst (run_ops ops h)) /\
  _event (snd (run_ops ops h)) = false.
Proof.
  induction ops as [|op ops IH]; intros h Hf Hq; simpl.
  - split; [constructor | exact Hf].
  - simpl in Hq. apply andb_true_iff in Hq as [Hop Hq].
    destruct op as [now d | e]; simpl in *.
    + apply IH; [rewrite reset_keeps_flag; exact Hf | exact Hq].
    + destruct (signal_at e) eqn:Hs; [discriminate|].
      destruct (wait_quiet e h Hf Hs) as [Hr Hc].
      destruct (wait e h) as [r h1]; simpl in *.
      destruct (IH h1 Hc Hq) as [Hall Hfin].
      destruct (run_ops ops h1) as [rs h2]; simpl in *.
      split; [constructor; assumption | assumption].
Qed.

(** [wait] returns false exactly when it is woken by the signal with the
    clock, at the call and after waking, not past the deadline. *)
Lemma wait_false_iff (e : WaitEnv) (h : t) :
  fst (wait e h) = false <->
  t_call e <= deadline h /\ Event_wait e h = true /\ t_wake e <= deadline h.
Proof.
  unfold wait, remaining, passed, remaining.
  destruct (deadline h - t_call e <? 0) eqn:E1; simpl.
  - apply Z.ltb_lt in E1. split; [discriminate | lia].
  - apply Z.ltb_ge in E1.
    destruct (Event_wait e h); simpl.
    + rewrite Z.ltb_ge. split; [intros H; repeat split; lia | lia].
    + split; [discriminate | intros (_ & H & _); discriminate].
Qed.

(** C1, as amended.  For every call of [wait] in a coherent environment,
    that is with a clock that does not go back between the signal and the
    waking: it returns false only when the signal it saw was set at or
    before the deadline (not: strictly before) and the clock read after
    waking is not past the deadline, and it does return false when the
    deadline has not passed at the call, a signal is seen and the clock read
    after waking is not past the deadline; it returns true when the deadline
    has passed at the call; it returns true when no signal is set before the
    timeout; it returns true when the signal was set after the deadline;
    and a return through the signal path leaves the flag clear. *)
Theorem wait_result (e : WaitEnv) (h : t) :
  coherent e h = true ->
  (fst (wait e h) = false ->
     t_wake e <= deadline h /\
     exists ts, signal_at e = Some ts /\ ts <= deadline h) /\
  (t_call e <= deadline h -> Event_wait e h = true ->
     t_wake e <= deadline h -> fst (wait e h) = false) /\
  (deadline h < t_call e -> fst (wait e h) = true) /\
  (_event h = false -> signal_at e = None -> fst (wait e h) = true) /\
  (forall ts, signal_at e = Some ts -> deadline h < ts ->
     fst (wait e h) = true) /\
  (t_call e <= deadline h -> Event_wait e h = true ->
     _event (snd (wait e h)) = false).
Proof.
  intros Hc. unfold coherent in Hc.
  apply andb_true_iff in Hc as [Hacc Hcausal].
  split; [|split; [|split; [|split; [|split]]]].
  - intros Hf. apply wait_false_iff in Hf. destruct Hf as (_ & Hw & Hwake).
    split; [exact Hwake|].
    unfold Event_wait in Hw.
    destruct (signal_at e) as [ts|] eqn:Hs.
    + apply Z.leb_le in Hcausal. exists ts. split; [reflexivity | lia].
    + rewrite orb_false_r in *.
      apply negb_true_iff in Hacc. rewrite Hacc in Hw. discriminate.
  - intros H1 H2 H3. apply wait_false_iff. auto.
  - intros H. rewrite (wait_overdue e h H). reflexivity.
  - intros Hf Hs. apply (wait_quiet e h Hf Hs).
  - intros ts Hs Hlate. unfold wait, remaining, passed, remaining, Event_wait.
    destruct (deadline h - t_call e <? 0) eqn:E1; simpl; [reflexivity|].
    rewrite Hs in *. rewrite orb_true_r. simpl.
    apply Z.leb_le in Hcausal. apply Z.ltb_lt. lia.
  - intros Hle Hw. unfold wait, remaining.
    destruct (deadline h - t_call e <? 0) eqn:E1.
    + apply Z.ltb_lt in E1. lia.
    + rewrite Hw. reflexivity.
Qed.

Lemma wait_result_witness :
  coherent on_the_dot armed = true /\
  (fst (wait on_the_dot armed) = false ->
   t_wake on_the_dot <= deadline armed /\
   exists ts, signal_at on_the_dot = Some ts /\ ts <= deadline armed).
Proof.
  split; [reflexivity|].
  exact (proj1 (wait_result on_the_dot armed eq_refl)).
Defined.

(** C1 as stated fails where the signal is set at the very clock reading of
    the deadline and the waker reads that same clock: [wait] returns false,
    yet the signal was not set strictly before the deadline. *)
Lemma wait_false_on_the_deadline :
  coherent on_the_dot armed = true /\
  fst (wait on_the_dot armed) = false /\
  signal_at on_the_dot = Some 1000 /\
  deadline armed = 1000 /\
  ~ (forall e h, coherent e h = true -> fst (wait e h) = false ->
       exists ts, signal_at e = Some ts /\ ts < deadline h).
Proof.
  repeat split.
  intros H.
  destruct (H on_the_dot armed eq_refl eq_refl) as (ts & Hs & Hlt).
  inversion Hs; subst ts. simpl in Hlt. lia.
Qed.

(** C9.  A [wait] called after the deadline returns true and clears the
    flag although it does not go through the signal path; the signal that
    was pending is gone: as long as no new signal is issued, no later
    [wait], whatever reschedules come between, returns false. *)
Theorem overdue_wait_consumes_signal (e : WaitEnv) (h : t) :
  deadline h < t_call e ->
  wait e h = (true, clear h) /\
  _event (snd (wait e h)) = false /\
  forall ops, forallb quiet ops = true ->
    Forall (fun r => r = true) (fst (run_ops ops (snd (wait e h)))).
Proof.
  intros Hlate. rewrite (wait_overdue e h Hlate). simpl.
  repeat split. intros ops Hq.
  apply (quiet_history ops (clear h)); [reflexivity | exact Hq].
Qed.

Lemma overdue_wait_consumes_signal_witness :
  deadline overdue < t_call too_late /\
  _event overdue = true /\
  wait too_late overdue = (true, clear overdue) /\
  fst (run_ops [OReset 2000 (Some 1000000); OWait (mkWaitEnv 2001 None 1002000)]
               (snd (wait too_late overdue))) = [true].
Proof.
  assert (Hlate : deadline overdue < t_call too_late) by (simpl; lia).
  split; [exact Hlate|]. split; [reflexivity|].
  split; [exact (proj1 (overdue_wait_consumes_signal too_late overdue Hlate))|].
  reflexivity.
Defined.

End WaitFacts.

(* ------------------------------------------------------------------ *)
(** ** The loop of a service *)

Section LoopFacts.
Import Service.

(** C2.  In [Idle], with no shutdown requested and the service not wanted, a
    turn of the loop that is woken by a signal before the deadline (the clock
    is not past the deadline at the call of [wait] nor after waking, so that
    [wait] returns false) makes no transition and does not reschedule: the
    state is still [Idle], the deadline is the one the turn found, and the
    time that remains is computed from it as before.  All the turn does is
    consume the signal. *)
Theorem idle_early_wake_is_noop {W : Worker} (e : IterEnv) (s : t) :
  state s = Idle -> _shutdown s = false -> wanted s = false ->
  WaitableHoldoff.Event_wait (i_wait e) (_event s) = true ->
  t_call (i_wait e) <= WaitableHoldoff.deadline (_event s) ->
  t_wake (i_wait e) <= WaitableHoldoff.deadline (_event s) ->
  exists s',
    run_iter e s = (Ret tt, s') /\
    s' = set_event (WaitableHoldoff.clear (_event s)) s /\
    state s' = Idle /\
    WaitableHoldoff.deadline (_event s') = WaitableHoldoff.deadline (_event s) /\
    forall now, WaitableHoldoff.remaining now (_event s')
                = WaitableHoldoff.remaining now (_event s).
Proof.
  intros Hst Hsd Hw Hsig Hcall Hwake.
  assert (Hwait : fst (WaitableHoldoff.wait (i_wait e) (_event s)) = false)
    by (apply wait_false_iff; auto).
  assert (Hsnd : snd (WaitableHoldoff.wait (i_wait e) (_event s))
                 = WaitableHoldoff.clear (_event s)).
  { revert Hwait. unfold WaitableHoldoff.wait.
    destruct (WaitableHoldoff.remaining (t_call (i_wait e)) (_event s) <? 0);
      [discriminate|].
    destruct (WaitableHoldoff.Event_wait (i_wait e) (_event s));
      [reflexivity | discriminate]. }
  exists (set_event (WaitableHoldoff.clear (_event s)) s).
  split; [|repeat split; try assumption; reflexivity].
  unfold run_iter, bind, read, wait_event. rewrite Hst, Hsd.
  destruct (WaitableHoldoff.wait (i_wait e) (_event s)) as [r h] eqn:E.
  simpl in Hwait, Hsnd. subst r h. simpl. rewrite Hw. reflexivity.
Qed.

Lemma idle_early_wake_is_noop_witness :
  exists s',
    @run_iter BaseWorker nudge idling = (Ret tt, s') /\
    state s' = Idle /\
    WaitableHoldoff.deadline (_event s') = 5000000.
Proof.
  assert (Hcall : t_call (i_wait nudge)
                  <= WaitableHoldoff.deadline (_event idling)) by (simpl; lia).
  assert (Hwake : t_wake (i_wait nudge)
                  <= WaitableHoldoff.deadline (_event idling)) by (simpl; lia).
  destruct (@idle_early_wake_is_noop BaseWorker nudge idling
              eq_refl eq_refl eq_refl eq_refl Hcall Hwake)
    as (s' & Hrun & _ & Hst & Hdl & _).
  exists s'. split; [exact Hrun|]. split; [exact Hst | exact Hdl].
Defined.

(** Three rows of the table of transitions, on the samples. *)
Example running_unwanted_goes_idle :
  @run_iter BaseWorker tick (set_wanted false busy)
  = (Ret tt, reset_event 2000000 (Some (seconds 5))
               (set_state Idle (set_wanted false busy))).
Proof. reflexivity. Qed.

Example idle_shutdown_goes_stopping :
  @run_iter BaseWorker nudge (set_shutdown true idling)
  = (Ret tt, reset_event 1000002 None
               (set_state Stopping (set_shutdown true idling))).
Proof. reflexivity. Qed.

Example starting_due_goes_running :
  @run_iter BaseWorker tick starting = (Ret tt, set_state Running starting).
Proof. reflexivity. Qed.

Section Containment.
Context {W : Worker}.

Lemma attempt_start_contains now s e :
  isinstance e Exception = true -> fst (_attempt_start now s) <> Raise e.
Proof.
  intros He. unfold _attempt_start, try_except_else.
  destruct (worker_start s) as [[[]|e'|] s1]; simpl; try discriminate.
  destruct (isinstance e' Exception) eqn:E'.
  - unfold bind, read. destruct (wanted s1); discriminate.
  - simpl. intros H. inversion H; subst. congruence.
Qed.

Lemma attempt_stop_contains now s e :
  isinstance e Exception = true -> fst (_attempt_stop now s) <> Raise e.
Proof.
  intros He. unfold _attempt_stop, try_except_else.
  destruct (worker_stop s) as [[[]|e'|] s1]; simpl; try discriminate.
  destruct (isinstance e' Exception) eqn:E'.
  - discriminate.
  - simpl. intros H. inversion H; subst. congruence.
Qed.

Lemma attempt_run_contains a b s e :
  isinstance e Exception = true -> fst (_attempt_run a b s) <> Raise e.
Proof.
  intros He. unfold _attempt_run, try_excepts, bind, modify.
  destruct (worker_run (tenths 1) _) as [[[]|e'|] s1]; simpl; try discriminate.
  destruct (isinstance e' ServiceRestartSignal); [discriminate|].
  destruct (isinstance e' Exception) eqn:E'; [discriminate|].
  simpl. unfold raise. simpl. intros H. inversion H; subst. congruence.
Qed.

Lemma run_iter_contains env s e :
  isinstance e Exception = true -> fst (run_iter env s) <> Raise e.
Proof.
  intros He. unfold run_iter, bind, read, wait_event.
  destruct (state s).
  - destruct (WaitableHoldoff.wait _ _) as [[] h]; simpl;
      [apply attempt_start_contains; assumption | discriminate].
  - destruct (wanted s); [apply attempt_run_contains; assumption | discriminate].
  - destruct (_shutdown s); simpl; [discriminate|].
    destruct (WaitableHoldoff.wait _ _) as [[] h]; simpl; [discriminate|].
    destruct (wanted s); discriminate.
  - destruct (WaitableHoldoff.wait _ _) as [[] h]; simpl;
      [apply attempt_stop_contains; assumption | discriminate].
  - destruct (WaitableHoldoff.wait _ _) as [r h]; simpl.
    destruct (wanted s); discriminate.
Qed.

Lemma run_loop_contains envs : forall s e,
  isinstance e Exception = true -> fst (run_loop envs s) <> Raise e.
Proof.
  induction envs as [|env envs IH]; intros s e He; simpl.
  - unfold bind, read. destruct (running s); discriminate.
  - unfold bind at 1. unfold modify at 1. unfold bind at 1. unfold read at 1.
    destruct (running (apply_writes (ext env) s)); [|discriminate].
    unfold bind.
    pose proof (run_iter_contains env (apply_writes (ext env) s) e He) as Hi.
    destruct (run_iter env _) as [[[]|e'|] s1]; simpl in *.
    + apply IH; assumption.
    + exact Hi.
    + discriminate.
Qed.

End Containment.

(** C4, as amended.  Let a hook raise an exception [e], an instance of
    [Exception].  Raised by [worker_run] in a turn of the [Running] state,
    it ends the turn normally in state [Stopping], with the deadline one
    second after the clock for the restart signal and at the clock itself
    for any other exception.  Raised by [worker_start], it leaves either a retry one second
    ahead (service still wanted) or the state [Stopped]; raised by
    [worker_stop], a retry one second ahead.  No such exception leaves the
    loop. *)
Theorem hook_exceptions_contained {W : Worker} (e : Exc) :
  isinstance e Exception = true ->
  (forall env s s1,
     state s = Running -> wanted s = true ->
     worker_run (tenths 1) (reset_event (t1 env) (Some (tenths 1)) s)
     = (Raise e, s1) ->
     exists s2,
       run_iter env s = (Ret tt, s2) /\
       state s2 = Stopping /\
       WaitableHoldoff.deadline (_event s2)
       = if isinstance e ServiceRestartSignal
         then t2 env + seconds 1 else t2 env) /\
  (forall now s s1,
     worker_start s = (Raise e, s1) ->
     _attempt_start now s
     = (Ret tt, if wanted s1 then reset_event now (Some (seconds 1)) s1
                else set_state Stopped s1)) /\
  (forall now s s1,
     worker_stop s = (Raise e, s1) ->
     _attempt_stop now s = (Ret tt, reset_event now (Some (seconds 1)) s1)) /\
  (forall envs s, fst (run_loop envs s) <> Raise e).
Proof.
  intros He. repeat split.
  - intros env s s1 Hst Hw Hrun.
    unfold run_iter, bind at 1, read at 1. rewrite Hst, Hw.
    unfold _attempt_run, try_excepts, bind, modify. rewrite Hrun. simpl.
    destruct (isinstance e ServiceRestartSignal) eqn:Hr.
    + eexists; split; [reflexivity|]. split; reflexivity.
    + rewrite He. eexists; split; [reflexivity|]. split; reflexivity.
  - intros now s s1 Hs. unfold _attempt_start, try_except_else.
    rewrite Hs, He. unfold bind, read, modify. destruct (wanted s1); reflexivity.
  - intros now s s1 Hs. unfold _attempt_stop, try_except_else.
    rewrite Hs, He. reflexivity.
  - intros envs s. apply run_loop_contains; assumption.
Qed.

Lemma hook_exceptions_contained_witness :
  isinstance ServiceRestartSignal Exception = true /\
  exists s2,
    @run_iter Restarter tick busy = (Ret tt, s2) /\
    state s2 = Stopping /\
    WaitableHoldoff.deadline (_event s2) = 2050000 + 1000000.
Proof.
  split; [reflexivity|].
  destruct (@hook_exceptions_contained Restarter ServiceRestartSignal eq_refl)
    as [Hrun _].
  exact (Hrun tick busy _ eq_refl eq_refl eq_refl).
Defined.

(** C4 as stated, for every exception, fails for one that is no instance of
    [Exception]: [SystemExit] raised by [worker_start] is not caught by
    [_attempt_start] and leaves the loop, and raised by [worker_run] it
    leaves the turn instead of moving the state to [Stopping]. *)
Lemma exit_from_a_hook_leaves_the_loop :
  isinstance SystemExit Exception = false /\
  @worker_start Exiter starting = (Raise SystemExit, starting) /\
  fst (@_attempt_start Exiter 2000000 starting) = Raise SystemExit /\
  fst (@run_loop Exiter [tick] starting) = Raise SystemExit /\
  fst (@run_iter Exiter tick busy) = Raise SystemExit /\
  state (snd (@run_iter Exiter tick busy)) = Running /\
  ~ (forall (W : Worker) (e : Exc) now s s1,
       @worker_start W s = (Raise e, s1) ->
       fst (@_attempt_start W now s) <> Raise e) /\
  ~ (forall (W : Worker) (e : Exc) envs s,
       fst (@run_loop W envs s) <> Raise e).
Proof.
  split; [reflexivity|]. split; [reflexivity|]. split; [reflexivity|].
  split; [reflexivity|]. split; [reflexivity|]. split; [reflexivity|].
  split.
  - intros H.
    exact (H Exiter SystemExit 2000000 starting starting eq_refl eq_refl).
  - intros H. exact (H Exiter SystemExit [tick] starting eq_refl).
Qed.

Lemma idle_one_poll timeout s p rest :
  idle timeout (s, p :: rest)
  = (fst (idle timeout (s, [p])), (fst (snd (idle timeout (s, [p]))), rest)).
Proof.
  unfold idle. simpl.
  destruct (WaitableHoldoff.wait _ _) as [r h]. reflexivity.
Qed.

Lemma idle_returns timeout s p :
  exists r s1, idle timeout (s, [p]) = (Ret r, (s1, [])).
Proof.
  unfold idle. simpl.
  destruct (WaitableHoldoff.wait _ _) as [r h]. eauto.
Qed.

Lemma idle_never_raises timeout c e c' : idle timeout c <> (Raise e, c').
Proof.
  unfold idle. destruct (snd c); [discriminate|].
  destruct (WaitableHoldoff.wait _ _). discriminate.
Qed.

Lemma await_ready_raises_stopped fuel : forall c e c',
  await_ready_loop fuel c = (Raise e, c') -> e = ServiceStoppedError.
Proof.
  induction fuel as [|n IH]; intros c e c'; simpl; [discriminate|].
  unfold bind, self.
  destruct (negb _).
  - intros H; inversion H; reflexivity.
  - destruct (RunState_eqb _ _); [discriminate|].
    destruct (idle _ _) as [[r| e0 |] c1] eqn:Hi.
    + apply IH.
    + exfalso. eapply idle_never_raises; eauto.
    + discriminate.
Qed.

(** C10.  [await_ready] looks at [running] and [wanted] before it looks at the
    state: at whichever check it finds one of the two flags false, the first
    or one reached after the waits [pre], it raises the stopped error, also
    when the state found at that check is [Running]. *)
Theorem await_ready_checks_flags_first (pre post : list Poll) :
  forall (s s' : t),
    polling pre s = Some s' ->
    running s' && wanted s' = false ->
    await_ready (s, pre ++ post) = (Raise ServiceStoppedError, (s', post)).
Proof.
  induction pre as [|p pre IH]; intros s s' Hp Hflags.
  - simpl in Hp. inversion Hp; subst s'. clear Hp.
    unfold await_ready. simpl. unfold bind, self. simpl.
    rewrite Hflags. reflexivity.
  - cbn [polling] in Hp.
    destruct (negb (running s && wanted s)) eqn:Hf; [discriminate|].
    destruct (RunState_eqb (state s) Running) eqn:Hs; [discriminate|].
    destruct (idle_returns (Some (tenths 4)) s p) as (r & s1 & Hi).
    rewrite Hi in Hp.
    specialize (IH s1 s' Hp Hflags).
    unfold await_ready in *. simpl List.length. simpl snd in *.
    change (await_ready_loop (S (S (List.length (pre ++ post))))
                             (s, (p :: pre) ++ post))
      with ((s0 <- self ;;
             if negb (running s0 && wanted s0) then raise ServiceStoppedError
             else if RunState_eqb (state s0) Running then ret true
             else _ <- idle (Some (tenths 4)) ;;
                  await_ready_loop (S (List.length (pre ++ post))))
              (s, p :: pre ++ post)).
    unfold bind at 1. unfold self at 1. cbn [fst].
    rewrite Hf, Hs. unfold bind.
    rewrite idle_one_poll, Hi. simpl. exact IH.
Qed.

Lemma await_ready_checks_flags_first_witness :
  exists s',
    polling [overtaken] starting = Some s' /\
    state s' = Running /\
    wanted s' = false /\
    await_ready (starting, [overtaken]) = (Raise ServiceStoppedError, (s', [])).
Proof.
  eexists. split; [reflexivity|]. split; [reflexivity|]. split; [reflexivity|].
  exact (await_ready_checks_flags_first [overtaken] [] starting _
           eq_refl eq_refl).
Defined.

End LoopFacts.

(* ------------------------------------------------------------------ *)
(** ** Dictionaries and the manager *)

Section DictFacts.
Context {V : Type}.
Implicit Types (d : PyDict.t V) (k : string) (v : V).

Lemma get_set_same k v d : PyDict.get k (PyDict.set k v d) = Some v.
Proof.
  induction d as [|[k' v'] d IH]; simpl.
  - rewrite String.eqb_refl. reflexivity.
  - destruct (String.eqb k k') eqn:E; simpl; rewrite E; auto.
Qed.


Lemma set_set k v1 v2 d :
  PyDict.set k v2 (PyDict.set k v1 d) = PyDict.set k v2 d.
Proof.
  induction d as [|[k' v'] d IH]; simpl.
  - rewrite String.eqb_refl. reflexivity.
  - destruct (String.eqb k k') eqn:E; simpl; rewrite E; congruence.
Qed.

Lemma set_get_id k v d : PyDict.get k d = Some v -> PyDict.set k v d = d.
Proof.
  induction d as [|[k' v'] d IH]; simpl; [discriminate|].
  destruct (String.eqb k k') eqn:E.
  - intros H. inversion H. reflexivity.
  - intros H. rewrite IH; auto.
Qed.

Lemma get_In_keys k d :
  PyDict.get k d <> None <-> In k (PyDict.keys d).
Proof.
  induction d as [|[k' v'] d IH]; simpl.
  - tauto.
  - destruct (String.eqb k k') eqn:E.
    + apply String.eqb_eq in E. subst. split; [auto | discriminate].
    + apply String.eqb_neq in E. rewrite IH. split; [auto|].
      intros [H|H]; [congruence | assumption].
Qed.
End DictFacts.

Lemma keys_set {V} k (v : V) d :
  PyDict.keys (PyDict.set k v d) = add_key k (PyDict.keys d).
Proof.
  induction d as [|[k' v'] d IH]; simpl; [reflexivity|].
  destruct (String.eqb k k'); simpl; congruence.
Qed.

Lemma keys_del {V} k (d : PyDict.t V) :
  PyDict.keys (PyDict.del k d) = del_key k (PyDict.keys d).
Proof.
  induction d as [|[k' v'] d IH]; simpl; [reflexivity|].
  destruct (String.eqb k k'); simpl; congruence.
Qed.

Lemma get_same_keys {V U} k (d : PyDict.t V) (d' : PyDict.t U) :
  PyDict.keys d = PyDict.keys d' ->
  PyDict.get k d <> None -> PyDict.get k d' <> None.
Proof. intros Hk. rewrite !get_In_keys, Hk. auto. Qed.

Lemma values_set_Forall {V} (P : V -> Prop) k v (d : PyDict.t V) :
  Forall P (PyDict.values d) -> P v -> Forall P (PyDict.values (PyDict.set k v d)).
Proof.
  intros Hd Hv. induction d as [|[k' v'] d IH]; simpl.
  - constructor; [assumption | constructor].
  - inversion Hd; subst. destruct (String.eqb k k'); simpl; constructor; auto.
Qed.

Lemma values_del_Forall {V} (P : V -> Prop) k (d : PyDict.t V) :
  Forall P (PyDict.values d) -> Forall P (PyDict.values (PyDict.del k d)).
Proof.
  intros Hd. induction d as [|[k' v'] d IH]; simpl; [constructor|].
  inversion Hd; subst. destruct (String.eqb k k'); simpl; auto.
Qed.

Lemma get_Forall {V} (P : V -> Prop) k v (d : PyDict.t V) :
  Forall P (PyDict.values d) -> PyDict.get k d = Some v -> P v.
Proof.
  intros Hd. induction d as [|[k' v'] d IH]; simpl; [discriminate|].
  inversion Hd; subst. destruct (String.eqb k k'); [|auto].
  intros H; inversion H; subst; assumption.
Qed.

Section ManagerFacts.
Import ServiceManager.

Lemma call_frame {A} o m (f : Prog Service.Caller A) w :
  svcs (snd (call o m f w)) = svcs w /\
  refs (snd (call o m f w)) = refs w /\
  trace (snd (call o m f w)) = trace w ++ [Call o m].
Proof.
  unfold call. destruct (f _) as [r c]. simpl. auto.
Qed.

Ltac run_prog :=
  unfold bind, read, modify, ret, raise;
  cbn [fst snd heap svcs refs trace tape set_refs set_svcs set_heap emit set_tape].

Lemma put_released name o r w :
  PyDict.get name (svcs w) = Some o ->
  PyDict.get name (refs w) = Some r ->
  r <> 0 ->
  put name w
  = (Ret tt,
     let w1 := set_refs (PyDict.set name (r - 1) (refs w)) w in
     if r - 1 =? 0 then snd (call_now o MStop Service.stop w1) else w1).
Proof.
  intros Hs Hr Hnz.
  unfold put, contains, PyDict.contains, svcs_getitem, refs_getitem,
    refs_setitem, call_now.
  run_prog. rewrite Hs. cbn [negb]. rewrite Hs. run_prog. rewrite Hr. run_prog.
  apply Z.eqb_neq in Hnz. rewrite Hnz. rewrite Hr. run_prog.
  rewrite get_set_same. destruct (r - 1 =? 0); reflexivity.
Qed.

Lemma put_at_zero name o w :
  PyDict.get name (svcs w) = Some o ->
  PyDict.get name (refs w) = Some 0 ->
  put name w = (Raise AssertionError, w).
Proof.
  intros Hs Hr.
  unfold put, contains, PyDict.contains, svcs_getitem, refs_getitem.
  run_prog. rewrite Hs. cbn [negb]. rewrite Hs. run_prog. rewrite Hr. reflexivity.
Qed.

Lemma put_unknown name w :
  PyDict.get name (svcs w) = None -> put name w = (Raise KeyError, w).
Proof.
  intros Hs. unfold put, contains, PyDict.contains. run_prog.
  rewrite Hs. reflexivity.
Qed.

Lemma get_unknown name ready w :
  PyDict.get name (svcs w) = None -> get name ready w = (Raise KeyError, w).
Proof.
  intros Hs. unfold get, contains, PyDict.contains. run_prog.
  rewrite Hs. reflexivity.
Qed.

(** [get] on a registered name, step by step. *)
Lemma get_registered name ready o r w :
  PyDict.get name (svcs w) = Some o ->
  PyDict.get name (refs w) = Some r ->
  get name ready w
  = let w1 := set_refs (PyDict.set name (r + 1) (refs w)) w in
    let w2 := if r + 1 =? 1
              then snd (call_now o MStart Service.start w1) else w1 in
    if ready then
      match call o MAwaitReady Service.await_ready w2 with
      | (Ret _, w3) => (Ret o, w3)
      | (Raise e, w3) =>
          if isinstance e ServiceError
          then match put name w3 with
               | (Ret _, w4) => (Raise e, w4)
               | (Raise e1, w4) => (Raise e1, w4)
               | (Blocked, w4) => (Blocked, w4)
               end
          else (Raise e, w3)
      | (Blocked, w3) => (Blocked, w3)
      end
    else (Ret o, w2).
Proof.
  intros Hs Hr.
  unfold get, contains, PyDict.contains, svcs_getitem, refs_getitem,
    refs_setitem, try_except, call_now.
  run_prog. rewrite Hs. cbn [negb]. rewrite Hs, Hr. run_prog.
  rewrite get_set_same. cbv zeta.
  destruct (r + 1 =? 1); destruct ready; try reflexivity.
  - destruct (call o MAwaitReady Service.await_ready _) as [[b|e|] w3];
      try reflexivity.
    destruct (isinstance e ServiceError); [|reflexivity].
    destruct (put name w3) as [[[]|e1|] w4]; reflexivity.
  - destruct (call o MAwaitReady Service.await_ready _) as [[b|e|] w3];
      try reflexivity.
    destruct (isinstance e ServiceError); [|reflexivity].
    destruct (put name w3) as [[[]|e1|] w4]; reflexivity.
Qed.

Lemma call_await_ready_raises o w e w' :
  call o MAwaitReady Service.await_ready w = (Raise e, w') ->
  e = ServiceStoppedError.
Proof.
  unfold call, Service.await_ready.
  destruct (Service.await_ready_loop _ _) as [[b|e0|] c] eqn:E; try discriminate.
  intros H. inversion H; subst.
  eapply await_ready_raises_stopped; eauto.
Qed.


(** What [get(name, ready=True)] can do on a registered, non-negative count. *)
Lemma get_ready_cases name o r w :
  PyDict.get name (svcs w) = Some o ->
  PyDict.get name (refs w) = Some r ->
  0 <= r ->
  let res := get name true w in
  let begun := (if r =? 0 then [Call o MStart] else []) ++ [Call o MAwaitReady] in
  svcs (snd res) = svcs w /\
  ((fst res = Ret o /\
    refs (snd res) = PyDict.set name (r + 1) (refs w) /\
    trace (snd res) = trace w ++ begun)
   \/
   (fst res = Raise ServiceStoppedError /\
    refs (snd res) = refs w /\
    trace (snd res)
    = trace w ++ begun ++ (if r =? 0 then [Call o MStop] else []))
   \/
   (fst res = Blocked /\
    refs (snd res) = PyDict.set name (r + 1) (refs w) /\
    trace (snd res) = trace w ++ begun)).
Proof.
  intros Hs Hr H0. cbv zeta.
  rewrite (get_registered name true o r w Hs Hr). cbv zeta.
  replace (r + 1 =? 1) with (r =? 0)
    by (destruct (Z.eqb_spec r 0), (Z.eqb_spec (r + 1) 1); auto; lia).
  set (w1 := set_refs (PyDict.set name (r + 1) (refs w)) w).
  set (w2 := if r =? 0 then snd (call_now o MStart Service.start w1) else w1).
  assert (Hw2s : svcs w2 = svcs w) by (subst w2 w1; destruct (r =? 0); reflexivity).
  assert (Hw2r : refs w2 = PyDict.set name (r + 1) (refs w))
    by (subst w2 w1; destruct (r =? 0); reflexivity).
  assert (Hw2t : trace w2 = trace w ++ (if r =? 0 then [Call o MStart] else []))
    by (subst w2 w1; destruct (r =? 0); simpl;
        [reflexivity | rewrite app_nil_r; reflexivity]).
  destruct (call_frame o MAwaitReady Service.await_ready w2) as (Hcs & Hcr & Hct).
  destruct (call o MAwaitReady Service.await_ready w2) as [[b|e0|] w3] eqn:Hcall;
    cbn [fst snd] in *.
  - split; [congruence|]. left. split; [reflexivity|].
    split; [congruence|]. rewrite Hct, Hw2t, <- app_assoc. reflexivity.
  - pose proof (call_await_ready_raises _ _ _ _ Hcall) as He0. subst e0.
    change (isinstance ServiceStoppedError ServiceError) with true. cbn match.
    assert (Hp : put name w3
                 = (Ret tt,
                    let w4 := set_refs (PyDict.set name (r + 1 - 1) (refs w3)) w3 in
                    if r + 1 - 1 =? 0
                    then snd (call_now o MStop Service.stop w4) else w4)).
    { apply put_released;
        [congruence | rewrite Hcr, Hw2r; apply get_set_same | lia]. }
    rewrite Hp. cbv zeta. cbn [fst snd].
    replace (r + 1 - 1) with r by lia.
    assert (Hback : PyDict.set name r (refs w3) = refs w).
    { rewrite Hcr, Hw2r, set_set. apply set_get_id. assumption. }
    destruct (r =? 0); simpl; rewrite ?Hback, Hct, Hw2t, Hcs, Hw2s;
      (split; [reflexivity|]); right; left;
      (split; [reflexivity|]); (split; [reflexivity|]);
      rewrite <- !app_assoc; reflexivity.
  - split; [congruence|]. right; right. split; [reflexivity|].
    split; [congruence|]. rewrite Hct, Hw2t, <- app_assoc. reflexivity.
Qed.

Lemma add_key_present k ks : In k ks -> add_key k ks = ks.
Proof.
  induction ks as [|k' ks IH]; simpl; [tauto|].
  destruct (String.eqb k k') eqn:E; [reflexivity|].
  apply String.eqb_neq in E.
  intros [H|H]; [congruence | rewrite IH; auto].
Qed.

Lemma keys_set_present {V} k (v v0 : V) d :
  PyDict.get k d = Some v0 -> PyDict.keys (PyDict.set k v d) = PyDict.keys d.
Proof.
  intros H. rewrite keys_set. apply add_key_present.
  apply get_In_keys. congruence.
Qed.

Lemma consistent_lookup name o w :
  consistent w -> PyDict.get name (svcs w) = Some o ->
  exists r, PyDict.get name (refs w) = Some r /\ 0 <= r.
Proof.
  intros [Hk Hpos] Hs.
  destruct (PyDict.get name (refs w)) as [r|] eqn:Hr.
  - exists r. split; [reflexivity|]. eapply get_Forall in Hpos; eauto.
  - exfalso. apply (get_same_keys name (svcs w) (refs w) Hk); congruence.
Qed.

Lemma consistent_frame w w' :
  svcs w' = svcs w -> refs w' = refs w -> consistent w -> consistent w'.
Proof. unfold consistent. intros -> ->. auto. Qed.

Lemma consistent_set_count name r r' w :
  consistent w -> PyDict.get name (refs w) = Some r -> 0 <= r' ->
  forall w', svcs w' = svcs w -> refs w' = PyDict.set name r' (refs w) ->
  consistent w'.
Proof.
  intros [Hk Hpos] Hr Hr' w' Hs' Hrf'. unfold consistent.
  rewrite Hs', Hrf'. split.
  - rewrite (keys_set_present name r' r _ Hr). assumption.
  - apply values_set_Forall; assumption.
Qed.

Lemma register_consistent name o w :
  consistent w -> consistent (snd (register name o w)).
Proof.
  intros [Hk Hpos]. unfold register, contains, refs_setitem. run_prog.
  destruct (PyDict.contains name (svcs w)); cbn [snd]; [split; assumption|].
  unfold consistent. cbn [svcs refs set_refs set_svcs]. split.
  - rewrite !keys_set. congruence.
  - apply values_set_Forall; [assumption | lia].
Qed.

Lemma unregister_consistent name w :
  consistent w -> consistent (snd (unregister name w)).
Proof.
  intros [Hk Hpos]. unfold unregister, contains, refs_getitem. run_prog.
  destruct (PyDict.contains name (svcs w)); cbn [negb snd]; [|split; assumption].
  destruct (PyDict.get name (refs w)) as [r|]; cbn [snd]; [|split; assumption].
  destruct (r =? 0); cbn [negb snd]; [|split; assumption].
  unfold consistent. cbn [svcs refs set_refs set_svcs]. split.
  - rewrite !keys_del. congruence.
  - apply values_del_Forall. assumption.
Qed.

Lemma put_consistent name w :
  consistent w -> consistent (snd (put name w)).
Proof.
  intros Hc.
  destruct (PyDict.get name (svcs w)) as [o|] eqn:Hs.
  - destruct (consistent_lookup name o w Hc Hs) as (r & Hr & H0).
    destruct (Z.eq_dec r 0) as [->|Hnz].
    + rewrite (put_at_zero name o w Hs Hr). assumption.
    + rewrite (put_released name o r w Hs Hr Hnz). cbv zeta. cbn [snd].
      apply (consistent_set_count name r (r - 1) w Hc Hr); [lia | |];
        destruct (r - 1 =? 0); reflexivity.
  - rewrite (put_unknown name w Hs). assumption.
Qed.

Lemma get_consistent name ready w :
  consistent w -> consistent (snd (get name ready w)).
Proof.
  intros Hc.
  destruct (PyDict.get name (svcs w)) as [o|] eqn:Hs.
  - destruct (consistent_lookup name o w Hc Hs) as (r & Hr & H0).
    rewrite (get_registered name ready o r w Hs Hr). cbv zeta.
    set (w1 := set_refs (PyDict.set name (r + 1) (refs w)) w).
    set (w2 := if r + 1 =? 1 then snd (call_now o MStart Service.start w1) else w1).
    assert (Hc2 : consistent w2).
    { apply (consistent_set_count name r (r + 1) w Hc Hr); [lia | |];
        subst w2 w1; destruct (r + 1 =? 1); reflexivity. }
    destruct ready; [|exact Hc2].
    destruct (call_frame o MAwaitReady Service.await_ready w2) as (Hcs & Hcr & _).
    destruct (call o MAwaitReady Service.await_ready w2) as [[b|e|] w3];
      cbn [fst snd] in *.
    + apply (consistent_frame w2); assumption.
    + assert (Hc3 : consistent w3) by (apply (consistent_frame w2); assumption).
      destruct (isinstance e ServiceError); [|exact Hc3].
      pose proof (put_consistent name w3 Hc3) as Hp.
      destruct (put name w3) as [[[]|e1|] w4]; exact Hp.
    + apply (consistent_frame w2); assumption.
  - rewrite (get_unknown name ready w Hs). assumption.
Qed.

Lemma perform_consistent op w :
  consistent w -> consistent (snd (perform op w)).
Proof.
  intros Hc. destruct op as [name o | name | name ready | name | ws]; simpl.
  - apply register_consistent; assumption.
  - apply unregister_consistent; assumption.
  - unfold bind. pose proof (get_consistent name ready w Hc) as Hg.
    destruct (get name ready w) as [[o|e|] w1]; exact Hg.
  - apply put_consistent; assumption.
  - exact Hc.
Qed.

Lemma perform_all_consistent ops : forall w,
  consistent w -> consistent (perform_all ops w).
Proof.
  induction ops as [|op ops IH]; intros w Hc; simpl; [assumption|].
  apply IH. apply perform_consistent. assumption.
Qed.

Lemma unregister_referenced name o r w :
  PyDict.get name (svcs w) = Some o ->
  PyDict.get name (refs w) = Some r -> r <> 0 ->
  unregister name w = (Raise ServiceError, w).
Proof.
  intros Hs Hr Hnz. unfold unregister, contains, PyDict.contains, refs_getitem.
  run_prog. rewrite Hs. cbn [negb]. rewrite Hr.
  apply Z.eqb_neq in Hnz. rewrite Hnz. reflexivity.
Qed.

Lemma register_taken name o o' w :
  PyDict.get name (svcs w) = Some o ->
  register name o' w = (Raise KeyError, w).
Proof.
  intros Hs. unfold register, contains, PyDict.contains. run_prog.
  rewrite Hs. reflexivity.
Qed.


Section Loops.
Context {A : Type}.
Variable R : World -> World -> Prop.
Hypothesis R_refl : forall w, R w w.
Hypothesis R_trans : forall a b c, R a b -> R b c -> R a c.
Variable body : A -> Prog World unit.

Lemma for_each_keeps :
  (forall x w, R w (snd (body x w))) ->
  forall xs w, R w (snd (for_each xs body w)).
Proof.
  intros Hb. induction xs as [|x xs IH]; intros w; cbn [for_each].
  - apply R_refl.
  - unfold bind. specialize (Hb x w).
    destruct (body x w) as [[[]|e|] w1]; cbn [snd] in *; try assumption.
    eapply R_trans; [exact Hb | apply IH].
Qed.

Variable evs : World -> A -> list Event.
Hypothesis evs_stable : forall w w' x, R w w' -> evs w' x = evs w x.

Lemma for_each_emits :
  (forall x w, R w (snd (body x w)) /\
               trace (snd (body x w)) = trace w ++ evs w x) ->
  forall xs w,
    exists k,
      trace (snd (for_each xs body w))
      = trace w ++ flat_map (evs w) (firstn k xs) /\
      (fst (for_each xs body w) = Ret tt -> firstn k xs = xs).
Proof.
  intros Hb. induction xs as [|x xs IH]; intros w; cbn [for_each].
  - exists O. simpl. rewrite app_nil_r. auto.
  - unfold bind. destruct (Hb x w) as [HR Ht].
    destruct (body x w) as [[[]|e|] w1]; cbn [fst snd] in *.
    + destruct (IH w1) as (k & Hk & Hdone). exists (S k). cbn [firstn flat_map].
      split.
      * rewrite Hk, Ht, <- app_assoc. f_equal. f_equal.
        apply flat_map_ext. intros a. apply evs_stable. assumption.
      * intros H. rewrite (Hdone H). reflexivity.
    + exists 1%nat. cbn [firstn flat_map]. rewrite app_nil_r.
      split; [assumption | discriminate].
    + exists 1%nat. cbn [firstn flat_map]. rewrite app_nil_r.
      split; [assumption | discriminate].
Qed.

Lemma for_each_returns :
  (forall x w, fst (body x w) = Ret tt) ->
  forall xs w, fst (for_each xs body w) = Ret tt.
Proof.
  intros Hb. induction xs as [|x xs IH]; intros w; cbn [for_each].
  - reflexivity.
  - unfold bind. specialize (Hb x w).
    destruct (body x w) as [[[]|e|] w1]; cbn [fst] in *;
      try discriminate. apply IH.
Qed.
End Loops.


Lemma dumped_refl w : dumped w w.
Proof.
  repeat split; try reflexivity. exists []. rewrite app_nil_r. auto.
Qed.

Lemma dumped_trans a b c : dumped a b -> dumped b c -> dumped a c.
Proof.
  intros (Hh & Hs & Hr & Ht & d & Hd & Hall) (Hh' & Hs' & Hr' & Ht' & d' & Hd' & Hall').
  repeat split; try congruence.
  exists (d ++ d'). rewrite Hd', Hd, <- app_assoc. split; [reflexivity|].
  rewrite forallb_app, Hall, Hall'. reflexivity.
Qed.

Lemma dump_line_dumped name w : dumped w (snd (dump_line name w)).
Proof.
  unfold dump_line, svcs_getitem, refs_getitem. run_prog.
  destruct (PyDict.get name (svcs w)) as [o|]; cbn [snd]; [|apply dumped_refl].
  destruct (PyDict.get name (refs w)) as [r|]; cbn [snd]; [|apply dumped_refl].
  repeat split; try reflexivity. eexists [_]. split; reflexivity.
Qed.

Lemma dump_effect w :
  heap (snd (dump w)) = heap w /\ svcs (snd (dump w)) = svcs w /\
  refs (snd (dump w)) = refs w /\ tape (snd (dump w)) = tape w /\
  exists d, trace (snd (dump w)) = trace w ++ DumpHeader :: d /\
            forallb is_dump d = true.
Proof.
  unfold dump, for_names. run_prog.
  pose proof (for_each_keeps dumped dumped_refl dumped_trans dump_line
                dump_line_dumped (PyDict.keys (svcs w)) (emit DumpHeader w))
    as (Hh & Hs & Hr & Ht & d & Hd & Hall).
  cbn [heap svcs refs tape trace emit] in *.
  repeat split; try assumption.
  exists d. rewrite Hd, <- app_assoc. auto.
Qed.


Lemma stop_unless_stopped_effect o w :
  settled w (snd (stop_unless_stopped o w)) /\
  trace (snd (stop_unless_stopped o w))
  = trace w ++ (if not_stopped (heap w) o then [Call o MStop] else []) /\
  fst (stop_unless_stopped o w) = Ret tt.
Proof.
  unfold stop_unless_stopped, call_now, not_stopped. run_prog.
  destruct (negb _); cbn [fst snd heap svcs refs trace emit set_heap].
  - repeat split; try reflexivity.
    intros o'. unfold upd. cbn [heap set_heap emit].
    destruct (Nat.eqb o' o); reflexivity.
  - rewrite app_nil_r. repeat split; reflexivity.
Qed.

Lemma wait_for_effect o w :
  same_registry w (snd (wait_for o w)) /\
  trace (snd (wait_for o w)) = trace w ++ [TraceThread o; Call o MAwaitStopped].
Proof.
  unfold wait_for. run_prog.
  destruct (call_frame o MAwaitStopped Service.await_stopped (emit (TraceThread o) w))
    as (Hs & Hr & Ht).
  destruct (call o MAwaitStopped Service.await_stopped _) as [[b|e|] w1];
    cbn [fst snd svcs refs trace emit] in *;
    (split; [split; assumption|]); rewrite Ht, <- app_assoc; reflexivity.
Qed.

Lemma clean_up_effect o w :
  same_registry w (snd (clean_up o w)) /\
  trace (snd (clean_up o w)) = trace w ++ [Call o MShutdown].
Proof.
  unfold clean_up.
  destruct (call_frame o MShutdown (Service.shutdown false) w) as (Hs & Hr & Ht).
  split; [split; assumption | assumption].
Qed.

Lemma flat_map_filter {X Y} (p : X -> bool) (f : X -> Y) xs :
  flat_map (fun x => if p x then [f x] else []) xs = map f (filter p xs).
Proof.
  induction xs as [|x xs IH]; simpl; [reflexivity|].
  destruct (p x); simpl; congruence.
Qed.

Lemma flat_map_singleton {X Y} (f : X -> Y) xs :
  flat_map (fun x => [f x]) xs = map f xs.
Proof. induction xs; simpl; congruence. Qed.

Lemma settled_refl w : settled w w.
Proof. repeat split; reflexivity. Qed.

Lemma settled_trans a b c : settled a b -> settled b c -> settled a c.
Proof.
  intros (Hs & Hr & Hst) (Hs' & Hr' & Hst').
  split; [congruence|]. split; [congruence|].
  intros o. rewrite Hst', Hst. reflexivity.
Qed.

Lemma same_registry_refl w : same_registry w w.
Proof. split; reflexivity. Qed.

Lemma same_registry_trans a b c :
  same_registry a b -> same_registry b c -> same_registry a c.
Proof. intros [Hs Hr] [Hs' Hr']. split; congruence. Qed.

Lemma for_services_eq body w :
  for_services body w = for_each (PyDict.values (svcs w)) body w.
Proof. reflexivity. Qed.

Lemma stop_phase w :
  let res := for_services stop_unless_stopped w in
  fst res = Ret tt /\ settled w (snd res) /\
  trace (snd res) = trace w ++ stops w.
Proof.
  cbv zeta. rewrite for_services_eq.
  set (vals := PyDict.values (svcs w)).
  split; [|split].
  - apply for_each_returns. intros x w0. apply stop_unless_stopped_effect.
  - apply (for_each_keeps settled settled_refl settled_trans).
    intros x w0. apply stop_unless_stopped_effect.
  - destruct (for_each_emits settled stop_unless_stopped
                (fun w0 o => if not_stopped (heap w0) o then [Call o MStop] else []))
      with (xs := vals) (w := w) as (k & Hk & Hdone).
    + intros w0 w' x (_ & _ & Hst). unfold not_stopped. rewrite Hst. reflexivity.
    + intros x w0. split; apply stop_unless_stopped_effect.
    + rewrite Hk. rewrite Hdone.
      * unfold stops. fold vals. rewrite flat_map_filter. reflexivity.
      * apply for_each_returns. intros x w0. apply stop_unless_stopped_effect.
Qed.

Lemma wait_phase w :
  let res := for_services wait_for w in
  same_registry w (snd res) /\
  exists k,
    trace (snd res)
    = trace w ++ flat_map (fun o => [TraceThread o; Call o MAwaitStopped])
                          (firstn k (PyDict.values (svcs w))) /\
    (fst res = Ret tt ->
     firstn k (PyDict.values (svcs w)) = PyDict.values (svcs w)).
Proof.
  cbv zeta. rewrite for_services_eq.
  split.
  - apply (for_each_keeps same_registry same_registry_refl same_registry_trans).
    intros x w0. apply wait_for_effect.
  - apply (for_each_emits same_registry
             wait_for (fun _ o => [TraceThread o; Call o MAwaitStopped])).
    + reflexivity.
    + intros x w0. apply wait_for_effect.
Qed.

Lemma clean_up_phase w :
  let res := for_services clean_up w in
  same_registry w (snd res) /\
  exists k,
    trace (snd res)
    = trace w ++ map (fun o => Call o MShutdown)
                     (firstn k (PyDict.values (svcs w))) /\
    (fst res = Ret tt ->
     firstn k (PyDict.values (svcs w)) = PyDict.values (svcs w)).
Proof.
  cbv zeta. rewrite for_services_eq.
  split.
  - apply (for_each_keeps same_registry same_registry_refl same_registry_trans).
    intros x w0. apply clean_up_effect.
  - destruct (for_each_emits same_registry
             clean_up (fun _ o => [Call o MShutdown]))
      with (xs := PyDict.values (svcs w)) (w := w) as (k & Hk & Hdone).
    + reflexivity.
    + intros x w0. apply clean_up_effect.
    + exists k. rewrite <- flat_map_singleton. auto.
Qed.

Lemma before_the_joins (X J : list Event) :
  forallb (fun ev => negb (is_join ev)) X = true ->
  forall pre a post rest,
    is_join a = true ->
    (pre ++ a :: post) ++ rest = X ++ J ->
    exists pre', pre = X ++ pre'.
Proof.
  induction X as [|x X IH]; intros HX pre a post rest Ha Heq.
  - exists pre. reflexivity.
  - simpl in HX. apply andb_true_iff in HX as [Hx HX].
    destruct pre as [|p pre]; simpl in Heq; inversion Heq; subst.
    + rewrite Ha in Hx. discriminate.
    + destruct (IH HX pre a post rest Ha H1) as [pre' ->].
      exists pre'. reflexivity.
Qed.

Lemma dump_is_no_join d :
  forallb is_dump d = true -> forallb (fun ev => negb (is_join ev)) d = true.
Proof.
  induction d as [|ev d IH]; simpl; [reflexivity|].
  intros H. apply andb_true_iff in H as [Hev Hd].
  rewrite (IH Hd). destruct ev; try discriminate; reflexivity.
Qed.

Lemma stops_are_no_joins w :
  forallb (fun ev => negb (is_join ev)) (stops w) = true.
Proof. unfold stops. induction (filter _ _); simpl; auto. Qed.

Lemma awaits_are_no_joins w :
  forallb (fun ev => negb (is_join ev)) (awaits w) = true.
Proof. unfold awaits. induction (PyDict.values _); simpl; auto. Qed.

Lemma stops_settled w w' :
  heap w' = heap w -> svcs w' = svcs w -> stops w' = stops w.
Proof. unfold stops. intros -> ->. reflexivity. Qed.

Lemma bind_at {St A B} (m : Prog St A) (k : A -> Prog St B) (s : St) :
  bind m k s
  = match m s with
    | (Ret a, s1) => k a s1
    | (Raise e, s1) => (Raise e, s1)
    | (Blocked, s1) => (Blocked, s1)
    end.
Proof. reflexivity. Qed.

Lemma modify_at {St} (f : St -> St) (s : St) : modify f s = (Ret tt, f s).
Proof. reflexivity. Qed.

(** The trace of [atexit], whatever its outcome. *)
Lemma atexit_trace (w : World) :
  exists evs d1 d2 d3 rest,
    trace (snd (atexit w)) = trace w ++ evs /\
    evs ++ rest
    = d1 ++ [TraceAllThreads] ++ stops w ++ d2 ++ awaits w ++ d3 ++ joins w /\
    forallb is_dump d1 = true /\ forallb is_dump d2 = true /\
    forallb is_dump d3 = true /\
    (fst (atexit w) = Ret tt ->
     rest = [] /\ hd_error d1 = Some DumpHeader /\
     hd_error d2 = Some DumpHeader /\ hd_error d3 = Some DumpHeader).
Proof.
  unfold atexit.
  (* the first dump *)
  rewrite bind_at.
  destruct (dump_effect w) as (Hh1 & Hs1 & Hr1 & _ & d1 & Ht1 & Hd1).
  destruct (dump w) as [o1 w1]. cbn [fst snd] in *.
  destruct o1 as [[]|e|];
    [| exists (DumpHeader :: d1), (DumpHeader :: d1), [], [],
              ([TraceAllThreads] ++ stops w ++ awaits w ++ joins w);
       cbn [snd fst]; repeat split; try assumption; try discriminate;
       rewrite <- ?app_assoc; reflexivity ..].
  (* the stops *)
  rewrite bind_at, modify_at, bind_at.
  pose proof (stop_phase (emit TraceAllThreads w1)) as (Hret & (Hs2 & Hr2 & Hst2) & Ht2).
  cbv zeta in Hret, Hs2, Hr2, Hst2, Ht2.
  destruct (for_services stop_unless_stopped (emit TraceAllThreads w1)) as [o2 w2].
  cbn [fst snd svcs refs trace heap emit] in *. subst o2.
  assert (Hstops : stops (emit TraceAllThreads w1) = stops w).
  { apply stops_settled; [exact Hh1 | exact Hs1]. }
  rewrite Hstops in Ht2.
  (* the second dump *)
  rewrite bind_at.
  destruct (dump_effect w2) as (_ & Hs3 & Hr3 & _ & d2 & Ht3 & Hd2).
  destruct (dump w2) as [o3 w3]. cbn [fst snd] in *.
  destruct o3 as [[]|e|];
    [| exists ((DumpHeader :: d1) ++ [TraceAllThreads] ++ stops w ++ DumpHeader :: d2),
              (DumpHeader :: d1), (DumpHeader :: d2), [],
              (awaits w ++ joins w);
       cbn [snd fst]; repeat split; try assumption; try discriminate;
       [ rewrite Ht3, Ht2, Ht1; rewrite <- ?app_assoc; reflexivity
       | rewrite <- ?app_assoc; reflexivity ] ..].
  (* the waits *)
  rewrite bind_at.
  pose proof (wait_phase w3) as ((Hs4 & Hr4) & k & Ht4 & Hdone4).
  cbv zeta in Hs4, Hr4, Ht4, Hdone4.
  destruct (for_services wait_for w3) as [o4 w4]. cbn [fst snd] in *.
  assert (Hv3 : PyDict.values (svcs w3) = PyDict.values (svcs w)) by congruence.
  rewrite Hv3 in Ht4, Hdone4.
  set (vals := PyDict.values (svcs w)) in *.
  assert (Hsplit : awaits w
                   = flat_map (fun o => [TraceThread o; Call o MAwaitStopped]) (firstn k vals)
                     ++ flat_map (fun o => [TraceThread o; Call o MAwaitStopped]) (skipn k vals)).
  { unfold awaits. fold vals. rewrite <- flat_map_app, firstn_skipn. reflexivity. }
  destruct o4 as [[]|e|];
    [| exists ((DumpHeader :: d1) ++ [TraceAllThreads] ++ stops w ++ (DumpHeader :: d2)
                ++ flat_map (fun o => [TraceThread o; Call o MAwaitStopped]) (firstn k vals)),
              (DumpHeader :: d1), (DumpHeader :: d2), [],
              (flat_map (fun o => [TraceThread o; Call o MAwaitStopped]) (skipn k vals)
                ++ joins w);
       cbn [snd fst]; repeat split; try assumption; try discriminate;
       [ rewrite Ht4, Ht3, Ht2, Ht1; rewrite <- ?app_assoc; reflexivity
       | rewrite Hsplit; rewrite <- ?app_assoc; reflexivity ] ..].
  specialize (Hdone4 eq_refl). rewrite Hdone4 in Ht4.
  fold (awaits w) in Ht4. clear Hsplit.
  (* the third dump *)
  rewrite bind_at.
  destruct (dump_effect w4) as (_ & Hs5 & Hr5 & _ & d3 & Ht5 & Hd3).
  destruct (dump w4) as [o5 w5]. cbn [fst snd] in *.
  destruct o5 as [[]|e|];
    [| exists ((DumpHeader :: d1) ++ [TraceAllThreads] ++ stops w ++ (DumpHeader :: d2)
                ++ awaits w ++ DumpHeader :: d3),
              (DumpHeader :: d1), (DumpHeader :: d2), (DumpHeader :: d3),
              (joins w);
       cbn [snd fst]; repeat split; try assumption; try discriminate;
       [ rewrite Ht5, Ht4, Ht3, Ht2, Ht1; rewrite <- ?app_assoc; reflexivity
       | rewrite <- ?app_assoc; reflexivity ] ..].
  (* the joins *)
  pose proof (clean_up_phase w5) as ((Hs6 & Hr6) & j & Ht6 & Hdone6).
  cbv zeta in Hs6, Hr6, Ht6, Hdone6.
  assert (Hv5 : PyDict.values (svcs w5) = vals) by (unfold vals; congruence).
  rewrite Hv5 in Ht6, Hdone6.
  assert (Hsplit : joins w
                   = map (fun o => Call o MShutdown) (firstn j vals)
                     ++ map (fun o => Call o MShutdown) (skipn j vals)).
  { unfold joins. fold vals. rewrite <- map_app, firstn_skipn. reflexivity. }
  exists ((DumpHeader :: d1) ++ [TraceAllThreads] ++ stops w ++ (DumpHeader :: d2)
            ++ awaits w ++ (DumpHeader :: d3)
            ++ map (fun o => Call o MShutdown) (firstn j vals)),
         (DumpHeader :: d1), (DumpHeader :: d2), (DumpHeader :: d3),
         (map (fun o => Call o MShutdown) (skipn j vals)).
  split; [|split; [|split; [|split; [|split]]]]; try assumption.
  - rewrite Ht6, Ht5, Ht4, Ht3, Ht2, Ht1. rewrite <- ?app_assoc. reflexivity.
  - rewrite Hsplit. rewrite <- ?app_assoc. reflexivity.
  - intros Hret. specialize (Hdone6 Hret).
    assert (Hlen : List.length (firstn j vals) = List.length vals) by congruence.
    rewrite <- (firstn_skipn j vals) in Hlen at 2.
    rewrite length_app in Hlen.
    destruct (skipn j vals); [auto | simpl in Hlen; lia].
Qed.

Lemma values_set_new {V} k (v : V) (d : PyDict.t V) :
  PyDict.get k d = None -> PyDict.values (PyDict.set k v d) = PyDict.values d ++ [v].
Proof.
  induction d as [|[k' v'] d IH]; simpl; [reflexivity|].
  destruct (String.eqb k k'); [discriminate|].
  intros H. simpl. rewrite IH; auto.
Qed.

(** C3.  [get(name, ready=True)] on a registered name whose count [r] is not
    negative.  If it raises, the exception is the stopped error of the
    readiness wait, the reference has been given back through [put] (which
    stops the service if the count is back at zero), and the counts are
    those of before the call.  Otherwise the count is [r + 1].  [start()] is
    called, once and before the wait, exactly when [r] was zero. *)
Theorem get_ready_refcount (name : string) (o : ObjId) (r : Z) (w : World) :
  PyDict.get name (svcs w) = Some o ->
  refcount name w = Some r ->
  0 <= r ->
  let begun := (if r =? 0 then [Call o MStart] else [])
               ++ [Call o MAwaitReady] in
  (forall e, fst (get name true w) = Raise e ->
     e = ServiceStoppedError /\
     refcount name (snd (get name true w)) = Some r /\
     refs (snd (get name true w)) = refs w /\
     trace (snd (get name true w))
     = trace w ++ begun ++ (if r =? 0 then [Call o MStop] else [])) /\
  (fst (get name true w) <> Raise ServiceStoppedError ->
     refcount name (snd (get name true w)) = Some (r + 1) /\
     trace (snd (get name true w)) = trace w ++ begun) /\
  (forall svc, fst (get name true w) = Ret svc -> svc = o) /\
  (exists evs, trace (snd (get name true w)) = trace w ++ evs /\
               (In (Call o MStart) evs <-> r = 0)).
Proof.
  intros Hs Hr H0 begun. unfold refcount in *.
  assert (Hstart : forall tl,
             ~ In (Call o MStart) tl ->
             (In (Call o MStart) (begun ++ tl) <-> r = 0)).
  { intros tl Htl. subst begun. destruct (Z.eqb_spec r 0) as [Hz|Hz]; simpl.
    - split; auto.
    - split; [|contradiction].
      intros [H|H]; [discriminate | contradiction]. }
  destruct (get_ready_cases name o r w Hs Hr H0)
    as [_ [(Ho & Hrf & Htr) | [(Ho & Hrf & Htr) | (Ho & Hrf & Htr)]]];
    rewrite Ho, Hrf, Htr.
  - split; [discriminate|]. split; [|split].
    + intros _. split; [apply get_set_same | reflexivity].
    + intros svc H; inversion H; reflexivity.
    + exists begun. split; [reflexivity|].
      rewrite <- (app_nil_r begun). apply Hstart. simpl. tauto.
  - split; [|split; [|split]].
    + intros e H; inversion H; subst e. auto.
    + congruence.
    + discriminate.
    + eexists. split; [reflexivity|]. apply Hstart.
      destruct (r =? 0); simpl; [|tauto].
      intros [H|H]; [discriminate | contradiction].
  - split; [discriminate|]. split; [|split].
    + intros _. split; [apply get_set_same | reflexivity].
    + discriminate.
    + exists begun. split; [reflexivity|].
      rewrite <- (app_nil_r begun). apply Hstart. simpl. tauto.
Qed.

Lemma get_ready_refcount_witness :
  fst (get "cam" true dead_world) = Raise ServiceStoppedError /\
  refcount "cam" dead_world = Some 0 /\
  refcount "cam" (snd (get "cam" true dead_world)) = Some 0 /\
  trace (snd (get "cam" true dead_world))
  = [Call 7%nat MStart; Call 7%nat MAwaitReady; Call 7%nat MStop].
Proof.
  pose proof (get_ready_refcount "cam" 7%nat 0 dead_world
                eq_refl eq_refl (Z.le_refl 0)) as [Hraise _].
  destruct (Hraise ServiceStoppedError eq_refl) as (_ & Hcount & _ & Htrace).
  split; [reflexivity|]. split; [reflexivity|].
  split; [exact Hcount | exact Htrace].
Defined.

(** C5.  After any history of [register], [unregister], [get] and [put] on a
    fresh manager, whatever the services and the other threads do: the count
    of a name is never negative; [unregister] of a name whose count is
    positive raises and changes nothing; and the two maps hold the same
    names. *)
Theorem refcount_invariant (ops : list Op) (h : Heap) (scripts : list Script)
    (name : string) :
  let w := perform_all ops (init h scripts) in
  (forall r, refcount name w = Some r -> 0 <= r) /\
  (forall r, refcount name w = Some r -> 0 < r ->
     fst (unregister name w) = Raise ServiceError /\
     snd (unregister name w) = w) /\
  (In name (PyDict.keys (svcs w)) <-> In name (PyDict.keys (refs w))) /\
  PyDict.keys (svcs w) = PyDict.keys (refs w).
Proof.
  intros w.
  assert (Hc : consistent w).
  { apply perform_all_consistent. split; [reflexivity | constructor]. }
  destruct Hc as [Hk Hpos]. unfold refcount.
  split; [|split; [|split]].
  - intros r Hr. eapply get_Forall in Hpos; eauto.
  - intros r Hr Hpos'.
    destruct (PyDict.get name (svcs w)) as [o|] eqn:Hs.
    + rewrite (unregister_referenced name o r w Hs Hr); [split; reflexivity | lia].
    + exfalso. apply (get_same_keys name (refs w) (svcs w)); congruence.
  - rewrite Hk. tauto.
  - assumption.
Qed.

Lemma refcount_invariant_witness :
  refcount "cam" (perform_all history (init (fun _ => Service.init 0) []))
  = Some 0 /\
  0 <= 0 /\
  PyDict.keys (svcs (perform_all history (init (fun _ => Service.init 0) [])))
  = ["cam"%string].
Proof.
  pose proof (refcount_invariant history (fun _ => Service.init 0) [] "cam")
    as (Hpos & _ & _ & _).
  split; [reflexivity|]. split; [exact (Hpos 0 eq_refl) | reflexivity].
Defined.

(** C6, as amended.  On a registered name the three misuses fail and leave
    the manager as it was, each with its own exception: a second [register]
    raises [KeyError], [unregister] with references outstanding raises
    [ServiceError], and [put] at a count of zero fails its assertion
    ([AssertionError]).  Of the three only [ServiceError] is an instance of
    the generic service error. *)
Theorem misuse_errors (name : string) (o : ObjId) (w : World) :
  PyDict.get name (svcs w) = Some o ->
  (forall o', register name o' w = (Raise KeyError, w)) /\
  (forall r, refcount name w = Some r -> r <> 0 ->
     unregister name w = (Raise ServiceError, w)) /\
  (refcount name w = Some 0 -> put name w = (Raise AssertionError, w)) /\
  isinstance KeyError ServiceError = false /\
  isinstance ServiceError ServiceError = true /\
  isinstance AssertionError ServiceError = false.
Proof.
  intros Hs. repeat split.
  - intros o'. apply (register_taken name o o' w Hs).
  - intros r Hr Hnz. apply (unregister_referenced name o r w Hs Hr Hnz).
  - intros Hr. apply (put_at_zero name o w Hs Hr).
Qed.

Lemma misuse_errors_witness :
  PyDict.get "cam" (svcs live_world) = Some 7%nat /\
  register "cam" 8%nat live_world = (Raise KeyError, live_world) /\
  put "cam" live_world = (Raise AssertionError, live_world).
Proof.
  pose proof (misuse_errors "cam" 7%nat live_world eq_refl)
    as (Hreg & _ & Hput & _).
  split; [reflexivity|]. split; [exact (Hreg 8%nat) | exact (Hput eq_refl)].
Defined.

(** C6 as stated fails: registering a taken name and releasing at count zero
    raise exceptions that are not instances of [ServiceError]. *)
Lemma misuse_is_not_always_a_service_error :
  (fst (register "cam" 8%nat live_world) = Raise KeyError /\
   isinstance KeyError ServiceError = false) /\
  (fst (put "cam" live_world) = Raise AssertionError /\
   isinstance AssertionError ServiceError = false) /\
  ~ (forall name o w e,
       PyDict.get name (svcs w) = Some o ->
       fst (register name o w) = Raise e ->
       isinstance e ServiceError = true).
Proof.
  split; [split; reflexivity|]. split; [split; reflexivity|].
  intros H.
  specialize (H "cam"%string 7%nat live_world KeyError eq_refl eq_refl).
  discriminate H.
Qed.



Lemma dump_lines_return names : forall w,
  (forall n, In n names ->
             PyDict.get n (svcs w) <> None /\ PyDict.get n (refs w) <> None) ->
  fst (for_each names dump_line w) = Ret tt.
Proof.
  induction names as [|name names IH]; intros w Hin; cbn [for_each];
    [reflexivity|].
  rewrite bind_at.
  destruct (Hin name (or_introl eq_refl)) as [Hs Hr].
  unfold dump_line at 1, svcs_getitem, refs_getitem. run_prog.
  destruct (PyDict.get name (svcs w)) as [o|] eqn:Es; [|congruence].
  destruct (PyDict.get name (refs w)) as [r|] eqn:Er; [|congruence].
  cbn [fst snd]. apply IH. intros n Hn. cbn [svcs refs emit].
  apply Hin. right. exact Hn.
Qed.

(** On a registry whose two maps hold the same names [dump] returns. *)
Lemma dump_returns w :
  PyDict.keys (svcs w) = PyDict.keys (refs w) -> fst (dump w) = Ret tt.
Proof.
  intros Hk. unfold dump, for_names. rewrite bind_at, modify_at, bind_at.
  unfold read at 1. apply dump_lines_return.
  intros n Hn. cbn [svcs refs emit] in *. split.
  - apply get_In_keys. exact Hn.
  - apply get_In_keys. rewrite <- Hk. exact Hn.
Qed.

(** C7.  Whatever its outcome, what [atexit] has done is a beginning of:
    a dump, the trace of all threads, [stop()] on every registered service
    that is not [Stopped], a dump, [await_stopped()] on every service in the
    order of the dictionary, a dump, [shutdown()] on every service in that
    order; it is all of it when [atexit] returns.  So a [shutdown()] is only
    ever called after all those [stop()] and all the [await_stopped()].  A
    dump adds its lines to the log and changes nothing else (and returns, the
    two maps holding the same names), and the order of the dictionary is the
    order of registration. *)
Theorem atexit_order (w : World) :
  (exists evs d1 d2 d3 rest,
     trace (snd (atexit w)) = trace w ++ evs /\
     evs ++ rest
     = d1 ++ [TraceAllThreads] ++ stops w ++ d2 ++ awaits w ++ d3 ++ joins w /\
     forallb is_dump d1 = true /\ forallb is_dump d2 = true /\
     forallb is_dump d3 = true /\
     (fst (atexit w) = Ret tt ->
      rest = [] /\ hd_error d1 = Some DumpHeader /\
      hd_error d2 = Some DumpHeader /\ hd_error d3 = Some DumpHeader) /\
     (forall pre o post,
        evs = pre ++ Call o MShutdown :: post ->
        exists pre',
          pre = d1 ++ [TraceAllThreads] ++ stops w ++ d2 ++ awaits w ++ d3
                ++ pre')) /\
  (heap (snd (dump w)) = heap w /\ svcs (snd (dump w)) = svcs w /\
   refs (snd (dump w)) = refs w /\ tape (snd (dump w)) = tape w /\
   (exists d, trace (snd (dump w)) = trace w ++ DumpHeader :: d /\
              forallb is_dump d = true) /\
   (PyDict.keys (svcs w) = PyDict.keys (refs w) -> fst (dump w) = Ret tt)) /\
  (forall name o,
     PyDict.get name (svcs w) = None ->
     PyDict.values (svcs (snd (register name o w)))
     = PyDict.values (svcs w) ++ [o]).
Proof.
  split; [|split].
  - destruct (atexit_trace w)
      as (evs & d1 & d2 & d3 & rest & Htr & Hshape & Hd1 & Hd2 & Hd3 & Hret).
    exists evs, d1, d2, d3, rest.
    repeat (split; [assumption|]).
    intros pre o post Hevs.
    assert (Hno : forallb (fun ev => negb (is_join ev))
                    (d1 ++ [TraceAllThreads] ++ stops w ++ d2 ++ awaits w ++ d3)
                  = true).
    { rewrite !forallb_app.
      rewrite (dump_is_no_join d1 Hd1), (dump_is_no_join d2 Hd2),
        (dump_is_no_join d3 Hd3), stops_are_no_joins, awaits_are_no_joins.
      reflexivity. }
    destruct (before_the_joins _ (joins w) Hno pre (Call o MShutdown) post rest)
      as [pre' Hpre].
    + reflexivity.
    + rewrite <- Hevs, Hshape. rewrite <- !app_assoc. reflexivity.
    + exists pre'. rewrite Hpre. rewrite <- !app_assoc. reflexivity.
  - destruct (dump_effect w) as (Hh & Hs & Hr & Ht & Hd).
    repeat (split; [assumption|]). apply dump_returns.
  - intros name o Hnone. unfold register, contains, PyDict.contains, refs_setitem.
    run_prog. rewrite Hnone. cbn [snd svcs set_refs set_svcs].
    apply values_set_new. assumption.
Qed.

Lemma atexit_order_witness :
  fst (atexit at_exit) = Ret tt /\
  stops at_exit = [Call 1%nat MStop] /\
  joins at_exit = [Call 0%nat MShutdown; Call 1%nat MShutdown] /\
  exists evs d1 d2 d3,
    trace (snd (atexit at_exit)) = trace at_exit ++ evs /\
    evs = d1 ++ [TraceAllThreads] ++ stops at_exit ++ d2 ++ awaits at_exit
          ++ d3 ++ joins at_exit.
Proof.
  split; [reflexivity|]. split; [reflexivity|]. split; [reflexivity|].
  destruct (atexit_order at_exit)
    as [(evs & d1 & d2 & d3 & rest & Htr & Hshape & _ & _ & _ & Hret & _) _].
  destruct (Hret eq_refl) as (Hrest & _).
  exists evs, d1, d2, d3. split; [exact Htr|].
  rewrite <- Hshape, Hrest, app_nil_r. reflexivity.
Defined.

End ManagerFacts.

(* ------------------------------------------------------------------ *)
(** ** More on the deadline and the wait *)

Section HoldoffMore.

(** X1.  After [reset] at clock [now] the deadline is [now] plus the delay
    (nothing for [None] and for zero), whatever it was before; from then on
    [passed] is true exactly at the clock readings after the deadline, so it
    is false at the deadline itself and stays true once it is. *)
Theorem reset_then_passed (now t : Z) (delay : option Z) (h : Holdoff.t) :
  Holdoff.deadline (Holdoff.reset now delay h) = now + delay_of delay /\
  Holdoff.remaining t (Holdoff.reset now delay h) = now + delay_of delay - t /\
  (Holdoff.passed t (Holdoff.reset now delay h) = true
   <-> now + delay_of delay < t) /\
  (forall t', t <= t' -> Holdoff.passed t h = true ->
              Holdoff.passed t' h = true).
Proof.
  assert (Hd : Holdoff.deadline (Holdoff.reset now delay h)
               = now + delay_of delay).
  { unfold Holdoff.reset, delay_of. destruct delay as [d|]; simpl.
    - destruct (Z.eqb_spec d 0); simpl; lia.
    - lia. }
  unfold Holdoff.passed, Holdoff.remaining. rewrite Hd.
  repeat split.
  - rewrite Z.ltb_lt. lia.
  - rewrite Z.ltb_lt. lia.
  - intros t' Hle Hp. apply Z.ltb_lt in Hp. apply Z.ltb_lt. lia.
Qed.

(** The example of the docstring of [Holdoff]: half a second of delay. *)
Lemma reset_then_passed_witness :
  Holdoff.passed 100000 (Holdoff.reset 0 (Some 500000) (Holdoff.init 0)) = false /\
  Holdoff.passed 500000 (Holdoff.reset 0 (Some 500000) (Holdoff.init 0)) = false /\
  Holdoff.passed 1000000 (Holdoff.reset 0 (Some 500000) (Holdoff.init 0)) = true.
Proof.
  destruct (reset_then_passed 0 1000000 (Some 500000) (Holdoff.init 0))
    as (_ & _ & Hiff & _).
  split; [reflexivity|]. split; [reflexivity|].
  apply Hiff. simpl. lia.
Defined.

End HoldoffMore.

Section WaitMore.
Import WaitableHoldoff.

Lemma signal_twice h : signal (signal h) = signal h.
Proof. reflexivity. Qed.

Lemma iter_signal n h : Nat.iter (S n) signal h = signal h.
Proof.
  induction n as [|n IH]; [reflexivity|].
  change (Nat.iter (S (S n)) signal h) with (signal (Nat.iter (S n) signal h)).
  rewrite IH. apply signal_twice.
Qed.

(** X2.  Signals given before a wait are not lost and do not add up: after
    one [signal()] or many, the next [wait] that is not past its deadline
    returns false at once, whatever else arrives, and consumes the signal; the
    [wait] after it, with no new signal, runs to the deadline.  Neither
    [signal] nor [wait] moves the deadline. *)
Theorem signal_is_seen_once (n : nat) (e e' : WaitEnv) (h : t) :
  t_call e <= deadline h ->
  t_wake e <= deadline h ->
  signal_at e' = None ->
  wait e (Nat.iter (S n) signal h) = (false, clear h) /\
  fst (wait e' (snd (wait e (Nat.iter (S n) signal h)))) = true /\
  deadline (snd (wait e' (snd (wait e (Nat.iter (S n) signal h)))))
  = deadline h.
Proof.
  intros Hcall Hwake Hquiet. rewrite iter_signal.
  assert (Hw : wait e (signal h) = (false, clear h)).
  { unfold wait, remaining, passed, remaining, Event_wait. simpl.
    destruct (deadline h - t_call e <? 0) eqn:E1;
      [apply Z.ltb_lt in E1; lia|].
    destruct (deadline h - t_wake e <? 0) eqn:E2;
      [apply Z.ltb_lt in E2; lia|].
    reflexivity. }
  rewrite Hw. simpl. split; [reflexivity|].
  unfold wait, Event_wait. rewrite Hquiet. simpl.
  destruct (remaining (t_call e') (clear h) <? 0); simpl; auto.
Qed.

Lemma signal_is_seen_once_witness :
  wait on_the_dot (Nat.iter 3 signal armed) = (false, clear armed) /\
  fst (wait (mkWaitEnv 995 None 1001)
            (snd (wait on_the_dot (Nat.iter 3 signal armed)))) = true.
Proof.
  assert (H1 : t_call on_the_dot <= deadline armed) by (simpl; lia).
  assert (H2 : t_wake on_the_dot <= deadline armed) by (simpl; lia).
  destruct (signal_is_seen_once 2 on_the_dot (mkWaitEnv 995 None 1001) armed
              H1 H2 eq_refl) as (Ha & Hb & _).
  split; [exact Ha | exact Hb].
Defined.

End WaitMore.

(* ------------------------------------------------------------------ *)
(** ** More on the loop of a service *)

Section LoopMore.
Import Service.

Lemma reset_event_fields now d s :
  running (reset_event now d s) = running s /\
  state (reset_event now d s) = state s /\
  wanted (reset_event now d s) = wanted s /\
  _shutdown (reset_event now d s) = _shutdown s.
Proof. repeat split. Qed.

Lemma wait_event_fields e s :
  fst (wait_event e s) <> Blocked /\
  (forall x, fst (wait_event e s) <> Raise x) /\
  running (snd (wait_event e s)) = running s /\
  state (snd (wait_event e s)) = state s /\
  wanted (snd (wait_event e s)) = wanted s /\
  _shutdown (snd (wait_event e s)) = _shutdown s.
Proof.
  unfold wait_event. destruct (WaitableHoldoff.wait e (_event s)) as [r h].
  simpl. repeat split; discriminate.
Qed.

Section Hooks.
Context {W : Worker}.

(** Where a turn of the loop can leave the state, the hooks leaving it
    alone: [_attempt_start] at [Starting], [Running] or [Stopped] ... *)
Lemma attempt_start_state now s :
  hooks_keep W state -> state s = Starting ->
  edge Starting (state (snd (_attempt_start now s))) = true.
Proof.
  intros (Hk & _ & _) Hst. unfold _attempt_start, try_except_else.
  specialize (Hk s).
  destruct (worker_start s) as [[[]|x|] s1]; simpl in *.
  - reflexivity.
  - destruct (isinstance x Exception); simpl; [|rewrite Hk, Hst; reflexivity].
    unfold bind, read. destruct (wanted s1); simpl; [|reflexivity].
    rewrite Hk, Hst. reflexivity.
  - rewrite Hk, Hst. reflexivity.
Qed.

Lemma attempt_run_state a b s :
  hooks_keep W state -> state s = Running ->
  edge Running (state (snd (_attempt_run a b s))) = true.
Proof.
  intros (_ & Hk & _) Hst. unfold _attempt_run, try_excepts, bind, modify.
  specialize (Hk (tenths 1) (reset_event a (Some (tenths 1)) s)).
  destruct (worker_run (tenths 1) _) as [[[]|x|] s1]; simpl in *.
  - rewrite Hk, Hst. reflexivity.
  - destruct (isinstance x ServiceRestartSignal); simpl; [reflexivity|].
    destruct (isinstance x Exception); simpl; [reflexivity|].
    rewrite Hk, Hst. reflexivity.
  - rewrite Hk, Hst. reflexivity.
Qed.

Lemma attempt_stop_state now s :
  hooks_keep W state -> state s = Stopping ->
  edge Stopping (state (snd (_attempt_stop now s))) = true.
Proof.
  intros (_ & _ & Hk) Hst. unfold _attempt_stop, try_except_else.
  specialize (Hk s).
  destruct (worker_stop s) as [[[]|x|] s1]; simpl in *.
  - reflexivity.
  - destruct (isinstance x Exception); simpl; rewrite Hk, Hst; reflexivity.
  - rewrite Hk, Hst. reflexivity.
Qed.

End Hooks.

(** X3.  A turn of the loop moves the state along an edge of the life cycle
    only, provided the hooks do not write the state themselves: from
    [Starting] to [Running] or [Stopped], from [Running] to [Idle] or
    [Stopping], from [Idle] to [Running] or [Stopping], from [Stopping] to
    [Stopped], from [Stopped] to [Starting], or it stays.  So a running
    worker is never marked [Stopped] without a turn in [Stopping], and a
    stopped one never [Running] without a turn in [Starting]. *)
Theorem loop_moves_along_edges {W : Worker} (e : IterEnv) (s : t) :
  hooks_keep W state ->
  edge (state s) (state (snd (run_iter e s))) = true.
Proof.
  intros Hk. unfold run_iter, bind at 1, read at 1.
  destruct (state s) eqn:Hst.
  - unfold bind.
    destruct (wait_event_fields (i_wait e) s) as (_ & _ & _ & Hs & _).
    destruct (wait_event (i_wait e) s) as [[[]|x|] s1] eqn:Hw; simpl in *.
    + apply attempt_start_state; [assumption | congruence].
    + rewrite Hs, Hst. reflexivity.
    + rewrite Hs, Hst. reflexivity.
    + rewrite Hs, Hst. reflexivity.
  - destruct (wanted s).
    + apply attempt_run_state; assumption.
    + reflexivity.
  - unfold bind.
    destruct (_shutdown s); simpl; [reflexivity|].
    destruct (wait_event_fields (i_wait e) s) as (_ & _ & _ & Hs & _).
    destruct (wait_event (i_wait e) s) as [[[]|x|] s1] eqn:Hw; simpl in *;
      try (rewrite Hs, Hst; reflexivity).
    + reflexivity.
    + unfold read. destruct (wanted s1); simpl; [reflexivity|].
      rewrite Hs, Hst. reflexivity.
  - unfold bind.
    destruct (wait_event_fields (i_wait e) s) as (_ & _ & _ & Hs & _).
    destruct (wait_event (i_wait e) s) as [[[]|x|] s1] eqn:Hw; simpl in *.
    + apply attempt_stop_state; [assumption | congruence].
    + rewrite Hs, Hst. reflexivity.
    + rewrite Hs, Hst. reflexivity.
    + rewrite Hs, Hst. reflexivity.
  - unfold bind.
    destruct (wait_event_fields (i_wait e) s) as (_ & _ & _ & Hs & _).
    destruct (wait_event (i_wait e) s) as [[r|x|] s1] eqn:Hw; simpl in *;
      try (rewrite Hs, Hst; reflexivity).
    unfold read. destruct (wanted s1); simpl; [reflexivity|].
    rewrite Hs, Hst. reflexivity.
Qed.

Lemma base_hooks_keep {B : Type} (f : t -> B) : hooks_keep BaseWorker f.
Proof. repeat split. Qed.

Lemma loop_moves_along_edges_witness :
  hooks_keep BaseWorker state /\
  state busy = Running /\
  state (snd (@run_iter BaseWorker tick (set_wanted false busy))) = Idle /\
  edge Running Idle = true /\ edge Running Stopped = false.
Proof.
  pose proof (@loop_moves_along_edges BaseWorker tick (set_wanted false busy)
                (base_hooks_keep state)) as H.
  split; [apply base_hooks_keep|]. split; [reflexivity|].
  split; [reflexivity|]. split; [exact H | reflexivity].
Defined.

Lemma apply_writes_shutdown ws : forall s,
  no_unshutdown ws = true -> _shutdown s = true ->
  _shutdown (apply_writes ws s) = true.
Proof.
  unfold apply_writes.
  induction ws as [|w ws IH]; intros s Hws Hs; simpl; [exact Hs|].
  simpl in Hws. apply andb_true_iff in Hws as [Hw Hws].
  apply IH; [exact Hws|].
  destruct w as [b|st|b|[]|b| | |d]; simpl; try exact Hs; try reflexivity.
  discriminate.
Qed.

Lemma run_iter_keeps_shutdown {W : Worker} (e : IterEnv) (s : t) :
  hooks_keep W _shutdown -> _shutdown (snd (run_iter e s)) = _shutdown s.
Proof.
  intros (Hstart & Hrun & Hstop).
  destruct (wait_event_fields (i_wait e) s) as (_ & _ & _ & _ & _ & Hsd).
  unfold run_iter, bind at 1, read at 1.
  destruct (state s).
  - unfold bind.
    destruct (wait_event (i_wait e) s) as [[[]|x|] s1]; simpl in *;
      try exact Hsd.
    unfold _attempt_start, try_except_else. specialize (Hstart s1).
    destruct (worker_start s1) as [[[]|x|] s2]; simpl in *; try congruence.
    destruct (isinstance x Exception); simpl; [|congruence].
    unfold bind, read. destruct (wanted s2); simpl; congruence.
  - destruct (wanted s); [|reflexivity].
    unfold _attempt_run, try_excepts, bind, modify.
    specialize (Hrun (tenths 1) (reset_event (t1 e) (Some (tenths 1)) s)).
    destruct (worker_run (tenths 1) _) as [[[]|x|] s2]; simpl in *;
      try exact Hrun.
    destruct (isinstance x ServiceRestartSignal); simpl; [exact Hrun|].
    destruct (isinstance x Exception); simpl; exact Hrun.
  - unfold bind. destruct (_shutdown s) eqn:E; simpl; [exact E|].
    destruct (wait_event (i_wait e) s) as [[[]|x|] s1]; simpl in *;
      try exact Hsd.
    unfold read. destruct (wanted s1); simpl; exact Hsd.
  - unfold bind.
    destruct (wait_event (i_wait e) s) as [[[]|x|] s1]; simpl in *;
      try exact Hsd.
    unfold _attempt_stop, try_except_else. specialize (Hstop s1).
    destruct (worker_stop s1) as [[[]|x|] s2]; simpl in *; try congruence.
    destruct (isinstance x Exception); simpl; congruence.
  - unfold bind.
    destruct (wait_event (i_wait e) s) as [[r|x|] s1]; simpl in *;
      try exact Hsd.
    unfold read. destruct (wanted s1); simpl; exact Hsd.
Qed.

Lemma run_loop_keeps_shutdown {W : Worker} (envs : list IterEnv) : forall s,
  hooks_keep W _shutdown ->
  forallb (fun e => no_unshutdown (ext e)) envs = true ->
  _shutdown s = true ->
  _shutdown (snd (run_loop envs s)) = true.
Proof.
  induction envs as [|e envs IH]; intros s Hk Hws Hs; simpl.
  - unfold bind, read. destruct (running s); exact Hs.
  - simpl in Hws. apply andb_true_iff in Hws as [Hw Hws].
    unfold bind at 1, modify at 1, bind at 1, read at 1.
    pose proof (apply_writes_shutdown (ext e) s Hw Hs) as Hs1.
    destruct (running (apply_writes (ext e) s)); [|exact Hs1].
    unfold bind.
    pose proof (run_iter_keeps_shutdown e (apply_writes (ext e) s) Hk) as Hi.
    destruct (run_iter e _) as [[[]|x|] s2]; simpl in *; try congruence.
    apply IH; [assumption | assumption | congruence].
Qed.

(** X4.  [stop()] leaves a mark that nothing in the class takes back:
    after [stop()] and a later [start()], through any number of turns of the
    loop (the hooks and the other threads not writing the mark themselves),
    [_shutdown] is still set; and a turn that finds the service [Idle] with
    the mark set goes to [Stopping] at once, with the deadline at the clock,
    without waiting and without looking at [wanted].  A service that has been
    stopped once has no grace period in [Idle] any more. *)
Theorem stop_request_is_never_withdrawn {W : Worker} (envs : list IterEnv)
    (s : t) :
  hooks_keep W _shutdown ->
  forallb (fun e => no_unshutdown (ext e)) envs = true ->
  wanted (start (stop s)) = true /\
  _shutdown (snd (run_loop envs (start (stop s)))) = true /\
  forall e s1,
    state s1 = Idle -> _shutdown s1 = true ->
    run_iter e s1 = (Ret tt, reset_event (t1 e) None (set_state Stopping s1)).
Proof.
  intros Hk Hws. split; [reflexivity|]. split.
  - apply run_loop_keeps_shutdown; [assumption | assumption | reflexivity].
  - intros e s1 Hst Hsd. unfold run_iter, bind, read. rewrite Hst, Hsd.
    reflexivity.
Qed.

Lemma stop_request_is_never_withdrawn_witness :
  wanted (start (stop idling)) = true /\
  _shutdown (snd (@run_loop BaseWorker [nudge] (start (stop idling)))) = true /\
  state (snd (@run_loop BaseWorker [nudge] (start (stop idling)))) = Stopping.
Proof.
  destruct (@stop_request_is_never_withdrawn BaseWorker [nudge] idling
              (base_hooks_keep _shutdown) eq_refl) as (Hw & Hs & _).
  split; [exact Hw|]. split; [exact Hs | reflexivity].
Defined.

Lemma run_loop_cons {W : Worker} (e : IterEnv) (rest : list IterEnv) (s : t) :
  run_loop (e :: rest) s
  = let s1 := apply_writes (ext e) s in
    if running s1
    then match run_iter e s1 with
         | (Ret _, s2) => run_loop rest s2
         | (Raise x, s2) => (Raise x, s2)
         | (Blocked, s2) => (Blocked, s2)
         end
    else (Ret tt, s1).
Proof.
  simpl. unfold bind, modify, read, ret. cbv zeta.
  destruct (running (apply_writes (ext e) s)); reflexivity.
Qed.

Lemma run_eq {W : Worker} (envs : list IterEnv) (s : t) :
  run envs s
  = match worker_init s with
    | (Ret _, s1) =>
        match run_loop envs s1 with
        | (Ret a, s2) => (Ret a, set_alive false s2)
        | (Raise x, s2) => (Raise x, set_alive false s2)
        | (Blocked, s2) => (Blocked, s2)
        end
    | (Raise x, s1) => (Raise x, set_alive false s1)
    | (Blocked, s1) => (Blocked, s1)
    end.
Proof.
  unfold run, try_finally, bind.
  destruct (worker_init s) as [[[]|x|] s1]; [|reflexivity|reflexivity].
  destruct (run_loop envs s1) as [[[]|x|] s2]; reflexivity.
Qed.

(** X5.  The loop of [run] is left, without an exception, only with
    [running] false, and it is left at once (no wait, no hook) at a check
    that finds [running] false; when [run] is over, by return or by an
    exception, the thread is no longer alive. *)
Theorem loop_ends_when_told {W : Worker} (envs : list IterEnv) (s : t) :
  (fst (run_loop envs s) = Ret tt -> running (snd (run_loop envs s)) = false) /\
  (forall e rest,
     running (apply_writes (ext e) s) = false ->
     run_loop (e :: rest) s = (Ret tt, apply_writes (ext e) s)) /\
  (fst (run envs s) <> Blocked -> alive (snd (run envs s)) = false) /\
  (fst (run envs s) = Ret tt -> running (snd (run envs s)) = false).
Proof.
  assert (Hloop : forall envs s,
             fst (run_loop envs s) = Ret tt ->
             running (snd (run_loop envs s)) = false).
  { clear. induction envs as [|e envs IH]; intros s.
    - simpl. unfold bind, read. destruct (running s) eqn:E; simpl;
        [discriminate | auto].
    - rewrite run_loop_cons. cbv zeta.
      destruct (running (apply_writes (ext e) s)) eqn:E; simpl; [|auto].
      destruct (run_iter e _) as [[[]|x|] s2]; simpl;
        try discriminate. apply IH. }
  split; [apply Hloop|]. split; [|split].
  - intros e rest Hr. rewrite run_loop_cons. cbv zeta. rewrite Hr. reflexivity.
  - rewrite run_eq.
    destruct (worker_init s) as [[[]|x|] s1]; simpl.
    + destruct (run_loop envs s1) as [[[]|x|] s2]; simpl; auto.
      intros H. contradiction H. reflexivity.
    + auto.
    + intros H. contradiction H. reflexivity.
  - rewrite run_eq.
    destruct (worker_init s) as [[[]|x|] s1]; simpl; try discriminate.
    specialize (Hloop envs s1).
    destruct (run_loop envs s1) as [[[]|x|] s2]; simpl in *;
      try discriminate. intros _. apply Hloop. reflexivity.
Qed.

Lemma loop_ends_when_told_witness :
  fst (@run Restarter [tick; mkIterEnv [WRunning false] (mkWaitEnv 0 None 0) 0 0]
            busy) = Ret tt /\
  running (snd (@run Restarter
                  [tick; mkIterEnv [WRunning false] (mkWaitEnv 0 None 0) 0 0]
                  busy)) = false /\
  alive (snd (@run Restarter
                [tick; mkIterEnv [WRunning false] (mkWaitEnv 0 None 0) 0 0]
                busy)) = false.
Proof.
  destruct (@loop_ends_when_told Restarter
              [tick; mkIterEnv [WRunning false] (mkWaitEnv 0 None 0) 0 0] busy)
    as (_ & _ & Halive & Hrun).
  split; [reflexivity|]. split; [apply Hrun; reflexivity|].
  apply Halive. discriminate.
Defined.

End LoopMore.

(* ------------------------------------------------------------------ *)
(** ** More on the calls made from other threads *)

Section CallerMore.
Import Service.

Lemma idle_outcome timeout c :
  (exists r c', idle timeout c = (Ret r, c') /\
                S (List.length (snd c')) = List.length (snd c)) \/
  (idle timeout c = (Blocked, c) /\ snd c = []).
Proof.
  unfold idle. destruct c as [s [|p rest]]; simpl.
  - right. auto.
  - left. destruct (WaitableHoldoff.wait _ _) as [r h]. eauto.
Qed.

Lemma await_stopped_loop_result fuel : forall c,
  (List.length (snd c) < fuel)%nat ->
  match await_stopped_loop fuel c with
  | (Ret true, c') => wanted (fst c') = false /\ state (fst c') = Stopped
  | (Ret false, c') => wanted (fst c') = true
  | (Raise _, _) => False
  | (Blocked, c') => snd c' = []
  end.
Proof.
  induction fuel as [|n IH]; intros c Hlen; [inversion Hlen|].
  cbn [await_stopped_loop]. unfold bind, self, ret. cbn [fst snd].
  destruct (wanted (fst c)) eqn:Hw; [exact Hw|].
  destruct (RunState_eqb (state (fst c)) Stopped) eqn:Hs.
  - split; [exact Hw|]. destruct (state (fst c)); try discriminate; reflexivity.
  - destruct (idle_outcome (Some (tenths 4)) c)
      as [(r & c' & Hi & Hl) | (Hi & Hnil)]; rewrite Hi.
    + apply IH. lia.
    + exact Hnil.
Qed.

Lemma await_ready_loop_result fuel : forall c,
  (List.length (snd c) < fuel)%nat ->
  match await_ready_loop fuel c with
  | (Ret b, c') =>
      b = true /\ running (fst c') = true /\ wanted (fst c') = true /\
      state (fst c') = Running
  | (Raise x, c') =>
      x = ServiceStoppedError /\ running (fst c') && wanted (fst c') = false
  | (Blocked, c') => snd c' = []
  end.
Proof.
  induction fuel as [|n IH]; intros c Hlen; [inversion Hlen|].
  cbn [await_ready_loop]. unfold bind, self, ret, raise. cbn [fst snd].
  destruct (running (fst c) && wanted (fst c)) eqn:Hf; cbn [negb fst snd];
    [|auto].
  destruct (RunState_eqb (state (fst c)) Running) eqn:Hs.
  - apply andb_true_iff in Hf as [Hr Hw].
    repeat split; try assumption.
    destruct (state (fst c)); try discriminate; reflexivity.
  - destruct (idle_outcome (Some (tenths 4)) c)
      as [(r & c' & Hi & Hl) | (Hi & Hnil)]; rewrite Hi.
    + apply IH. lia.
    + exact Hnil.
Qed.

Lemma join_loop_result fuel : forall c,
  (List.length (snd c) < fuel)%nat ->
  match join_loop fuel c with
  | (Ret _, c') => alive (fst c') = false
  | (Raise _, _) => False
  | (Blocked, c') => snd c' = []
  end.
Proof.
  induction fuel as [|n IH]; intros c Hlen; [inversion Hlen|].
  simpl. unfold bind, self.
  destruct (alive (fst c)) eqn:Ha; [|exact Ha].
  destruct c as [s [|p rest]]; simpl in *; [reflexivity|].
  apply IH. simpl. lia.
Qed.

Lemma await_stopped_outcome (c : Caller) :
  match await_stopped c with
  | (Ret true, c') => wanted (fst c') = false /\ state (fst c') = Stopped
  | (Ret false, c') => wanted (fst c') = true
  | (Raise _, _) => False
  | (Blocked, c') => snd c' = []
  end.
Proof. apply await_stopped_loop_result. apply Nat.lt_succ_diag_r. Qed.

Lemma await_stopped_never_raises (c : Caller) (x : Exc) :
  fst (await_stopped c) <> Raise x.
Proof.
  pose proof (await_stopped_outcome c) as H.
  destruct (await_stopped c) as [[b|y|] c']; cbn [fst]; try discriminate.
  contradiction.
Qed.

Lemma await_ready_outcome (c : Caller) :
  match await_ready c with
  | (Ret b, c') =>
      b = true /\ running (fst c') = true /\ wanted (fst c') = true /\
      state (fst c') = Running
  | (Raise x, c') =>
      x = ServiceStoppedError /\ running (fst c') && wanted (fst c') = false
  | (Blocked, c') => snd c' = []
  end.
Proof. apply await_ready_loop_result. apply Nat.lt_succ_diag_r. Qed.

(** X6.  [await_stopped] never raises.  It returns true only with the
    service not wanted and [Stopped] at that moment, and false only with the
    service wanted; it answers at once, without waiting, when it finds the
    service wanted (false) or stopped and not wanted (true); and it only
    stays blocked for want of anything more happening. *)
Theorem await_stopped_result (c : Caller) :
  (fst (await_stopped c) = Ret true ->
     wanted (fst (snd (await_stopped c))) = false /\
     state (fst (snd (await_stopped c))) = Stopped) /\
  (fst (await_stopped c) = Ret false ->
     wanted (fst (snd (await_stopped c))) = true) /\
  (forall x, fst (await_stopped c) <> Raise x) /\
  (fst (await_stopped c) = Blocked -> snd (snd (await_stopped c)) = []) /\
  (wanted (fst c) = true -> await_stopped c = (Ret false, c)) /\
  (wanted (fst c) = false -> state (fst c) = Stopped ->
     await_stopped c = (Ret true, c)).
Proof.
  pose proof (await_stopped_loop_result (S (List.length (snd c))) c
                (Nat.lt_succ_diag_r _)) as H.
  unfold await_stopped.
  split; [|split; [|split; [|split; [|split]]]].
  - destruct (await_stopped_loop _ c) as [[[]|x|] c']; simpl;
      try discriminate. intros _. exact H.
  - destruct (await_stopped_loop _ c) as [[[]|x|] c']; simpl;
      try discriminate. intros _. exact H.
  - intros x. destruct (await_stopped_loop _ c) as [[[]|y|] c']; simpl;
      try discriminate. contradiction.
  - destruct (await_stopped_loop _ c) as [[[]|x|] c']; simpl;
      try discriminate. intros _. exact H.
  - intros Hw. simpl. unfold bind, self. rewrite Hw. reflexivity.
  - intros Hw Hs. simpl. unfold bind, self. rewrite Hw, Hs. reflexivity.
Qed.

Lemma await_stopped_result_witness :
  fst (await_stopped (stop busy,
         [mkPoll 10 (mkWaitEnv 10 None 400010) [WState Stopped]])) = Ret true /\
  state (fst (snd (await_stopped (stop busy,
         [mkPoll 10 (mkWaitEnv 10 None 400010) [WState Stopped]])))) = Stopped /\
  await_stopped (busy, []) = (Ret false, (busy, [])).
Proof.
  destruct (await_stopped_result (stop busy,
              [mkPoll 10 (mkWaitEnv 10 None 400010) [WState Stopped]]))
    as (Htrue & _).
  destruct (await_stopped_result (busy, [])) as (_ & _ & _ & _ & Hnow & _).
  split; [reflexivity|]. split; [exact (proj2 (Htrue eq_refl))|].
  exact (Hnow eq_refl).
Defined.

(** X7.  [await_ready] returns only true, and only with the service
    running, wanted and in state [Running] at that moment; it raises nothing
    but the stopped error, and that only with [running] or [wanted] false;
    and it only stays blocked for want of anything more happening. *)
Theorem await_ready_result (c : Caller) :
  (forall b, fst (await_ready c) = Ret b ->
     b = true /\
     running (fst (snd (await_ready c))) = true /\
     wanted (fst (snd (await_ready c))) = true /\
     state (fst (snd (await_ready c))) = Running) /\
  (forall x, fst (await_ready c) = Raise x ->
     x = ServiceStoppedError /\
     running (fst (snd (await_ready c))) && wanted (fst (snd (await_ready c)))
     = false) /\
  (fst (await_ready c) = Blocked -> snd (snd (await_ready c)) = []).
Proof.
  pose proof (await_ready_loop_result (S (List.length (snd c))) c
                (Nat.lt_succ_diag_r _)) as H.
  unfold await_ready.
  destruct (await_ready_loop _ c) as [[b|x|] c']; simpl.
  - split; [|split; discriminate]. intros b' Hb. inversion Hb; subst. exact H.
  - split; [discriminate|]. split; [|discriminate].
    intros y Hy. inversion Hy; subst. exact H.
  - split; [discriminate|]. split; [discriminate|]. intros _. exact H.
Qed.

Lemma await_ready_result_witness :
  fst (await_ready (starting,
         [mkPoll 10 (mkWaitEnv 10 None 400010) [WState Running]])) = Ret true /\
  state (fst (snd (await_ready (starting,
         [mkPoll 10 (mkWaitEnv 10 None 400010) [WState Running]])))) = Running.
Proof.
  destruct (await_ready_result (starting,
              [mkPoll 10 (mkWaitEnv 10 None 400010) [WState Running]]))
    as (Hret & _).
  destruct (Hret true eq_refl) as (_ & _ & _ & Hs).
  split; [reflexivity | exact Hs].
Defined.

Lemma restart_eq (c : Caller) :
  restart c
  = match await_stopped (stop (fst c), snd c) with
    | (Ret _, c1) =>
        if wanted (fst c)
        then match await_ready (start (fst c1), snd c1) with
             | (Ret _, c2) => (Ret tt, c2)
             | (Raise x, c2) => (Raise x, c2)
             | (Blocked, c2) => (Blocked, c2)
             end
        else (Ret tt, c1)
    | (Raise x, c1) => (Raise x, c1)
    | (Blocked, c1) => (Blocked, c1)
    end.
Proof.
  unfold restart, bind, self, update, ret. cbn [fst snd].
  destruct (await_stopped (stop (fst c), snd c)) as [[b|x|] c1];
    try reflexivity.
  destruct (wanted (fst c)); [|reflexivity].
  cbn [fst snd].
  destruct (await_ready (start (fst c1), snd c1)) as [[b'|x|] c2]; reflexivity.
Qed.

(** X8.  [restart] raises nothing but the stopped error of its readiness
    wait, and only if the service was wanted when it was called; called on a
    wanted service it returns only with the service running, wanted and in
    state [Running]; called on a service that was not wanted it stops it,
    waits, and does not start it. *)
Theorem restart_result (c : Caller) :
  (forall x, fst (restart c) = Raise x ->
     x = ServiceStoppedError /\ wanted (fst c) = true) /\
  (wanted (fst c) = true -> fst (restart c) = Ret tt ->
     running (fst (snd (restart c))) = true /\
     wanted (fst (snd (restart c))) = true /\
     state (fst (snd (restart c))) = Running) /\
  (wanted (fst c) = false ->
     restart c = (_ <- await_stopped ;; ret tt) (stop (fst c), snd c)).
Proof.
  rewrite restart_eq.
  pose proof (await_stopped_never_raises (stop (fst c), snd c)) as Hnr.
  split; [|split].
  - intros x.
    destruct (await_stopped (stop (fst c), snd c)) as [[b|y|] c1]; simpl;
      try discriminate.
    + destruct (wanted (fst c)); [|discriminate].
      pose proof (await_ready_outcome (start (fst c1), snd c1)) as Hrs.
      destruct (await_ready (start (fst c1), snd c1)) as [[b'|y|] c2]; simpl in *;
        try discriminate.
      intros H. inversion H; subst y.
      destruct Hrs as [Hx _]. auto.
    + exfalso. apply (Hnr y). reflexivity.
  - intros Hw. rewrite Hw.
    destruct (await_stopped (stop (fst c), snd c)) as [[b|y|] c1]; simpl;
      try discriminate.
    pose proof (await_ready_outcome (start (fst c1), snd c1)) as Hret.
    destruct (await_ready (start (fst c1), snd c1)) as [[b'|y|] c2]; simpl in *;
      try discriminate.
    intros _. destruct Hret as (_ & H1 & H2 & H3). auto.
  - intros Hw. rewrite Hw. unfold bind, ret.
    destruct (await_stopped (stop (fst c), snd c)) as [[b|y|] c1]; reflexivity.
Qed.

Lemma restart_result_witness :
  wanted busy = true /\
  fst (restart (busy,
         [mkPoll 10 (mkWaitEnv 10 None 400010) [WState Stopped];
          mkPoll 20 (mkWaitEnv 20 None 400020) [WState Running]])) = Ret tt /\
  state (fst (snd (restart (busy,
         [mkPoll 10 (mkWaitEnv 10 None 400010) [WState Stopped];
          mkPoll 20 (mkWaitEnv 20 None 400020) [WState Running]])))) = Running.
Proof.
  destruct (restart_result (busy,
              [mkPoll 10 (mkWaitEnv 10 None 400010) [WState Stopped];
               mkPoll 20 (mkWaitEnv 20 None 400020) [WState Running]]))
    as (_ & Hret & _).
  destruct (Hret eq_refl eq_refl) as (_ & _ & Hs).
  split; [reflexivity|]. split; [reflexivity | exact Hs].
Defined.

Lemma shutdown_eq (own : bool) (c : Caller) :
  shutdown own c
  = let halt := fun c1 : Caller =>
                  join own (signal_event (set_running false (fst c1)), snd c1) in
    if negb (RunState_eqb (state (fst c)) Stopped)
    then match await_stopped (stop (fst c), snd c) with
         | (Ret _, c1) => halt c1
         | (Raise x, c1) => (Raise x, c1)
         | (Blocked, c1) => (Blocked, c1)
         end
    else halt c.
Proof.
  unfold shutdown, bind, self, update, ret. cbn [fst snd].
  destruct (negb (RunState_eqb (state (fst c)) Stopped)); cbn [fst snd].
  - destruct (await_stopped (stop (fst c), snd c)) as [[b|x|] c1];
      reflexivity.
  - reflexivity.
Qed.

Lemma join_outcome (c : Caller) :
  match join false c with
  | (Ret _, c') => alive (fst c') = false
  | (Raise _, _) => False
  | (Blocked, c') => snd c' = []
  end.
Proof. apply join_loop_result. apply Nat.lt_succ_diag_r. Qed.

(** X9.  Called from another thread than the one of the service,
    [shutdown] never raises; it returns only once the thread is no longer
    alive, and only stays blocked for want of anything more happening.  A
    service that is [Stopped] is not told to stop again: if its thread has
    ended too, [shutdown] just clears [running], signals and returns.
    Called from the thread of the service itself, [shutdown] never returns:
    it raises the [RuntimeError] of [join], and nothing else, or its wait
    for the stop does not end; on a [Stopped] service it raises at once,
    with [running] cleared. *)
Theorem shutdown_result (c : Caller) :
  (forall x, fst (shutdown false c) <> Raise x) /\
  (fst (shutdown false c) = Ret tt ->
     alive (fst (snd (shutdown false c))) = false) /\
  (fst (shutdown false c) = Blocked -> snd (snd (shutdown false c)) = []) /\
  (state (fst c) = Stopped -> alive (fst c) = false ->
     shutdown false c
     = (Ret tt, (signal_event (set_running false (fst c)), snd c))) /\
  fst (shutdown true c) <> Ret tt /\
  (forall x, fst (shutdown true c) = Raise x -> x = RuntimeError) /\
  (state (fst c) = Stopped ->
     shutdown true c
     = (Raise RuntimeError,
        (signal_event (set_running false (fst c)), snd c))).
Proof.
  pose proof join_outcome as Hjoin.
  pose proof (await_stopped_outcome (stop (fst c), snd c)) as Hwait.
  rewrite !shutdown_eq. cbv zeta.
  split; [|split; [|split; [|split; [|split; [|split]]]]].
  - intros x. destruct (negb _).
    + destruct (await_stopped (stop (fst c), snd c)) as [[b|y|] c1]; cbn [fst snd].
      * specialize (Hjoin (signal_event (set_running false (fst c1)), snd c1)).
        destruct (join false _) as [[[]|y|] c2]; cbn [fst snd];
          [discriminate | contradiction | discriminate].
      * contradiction.
      * discriminate.
    + specialize (Hjoin (signal_event (set_running false (fst c)), snd c)).
      destruct (join false _) as [[[]|y|] c2]; cbn [fst snd];
        [discriminate | contradiction | discriminate].
  - destruct (negb _).
    + destruct (await_stopped (stop (fst c), snd c)) as [[b|y|] c1]; cbn [fst snd];
        try discriminate.
      specialize (Hjoin (signal_event (set_running false (fst c1)), snd c1)).
      destruct (join false _) as [[[]|y|] c2]; cbn [fst snd]; try discriminate. auto.
    + specialize (Hjoin (signal_event (set_running false (fst c)), snd c)).
      destruct (join false _) as [[[]|y|] c2]; cbn [fst snd]; try discriminate. auto.
  - destruct (negb _).
    + destruct (await_stopped (stop (fst c), snd c)) as [[b|y|] c1]; cbn [fst snd] in *;
        try discriminate.
      * specialize (Hjoin (signal_event (set_running false (fst c1)), snd c1)).
        destruct (join false _) as [[[]|y|] c2]; cbn [fst snd]; try discriminate. auto.
      * intros _. exact Hwait.
    + specialize (Hjoin (signal_event (set_running false (fst c)), snd c)).
      destruct (join false _) as [[[]|y|] c2]; cbn [fst snd]; try discriminate. auto.
  - intros Hs Ha. rewrite Hs. cbn [RunState_eqb negb].
    unfold join. cbn [join_loop fst snd]. unfold bind, self, ret.
    cbn [fst snd alive signal_event set_event set_running].
    rewrite Ha. reflexivity.
  - unfold join, raise. destruct (negb _); [|discriminate].
    destruct (await_stopped (stop (fst c), snd c)) as [[b|y|] c1];
      discriminate.
  - intros x. unfold join, raise. destruct (negb _).
    + destruct (await_stopped (stop (fst c), snd c)) as [[b|y|] c1];
        cbn [fst]; try discriminate.
      * intros H. inversion H. reflexivity.
      * contradiction.
    + cbn [fst]. intros H. inversion H. reflexivity.
  - intros Hs. rewrite Hs. reflexivity.
Qed.

Lemma shutdown_result_witness :
  fst (shutdown false (busy,
         [mkPoll 10 (mkWaitEnv 10 None 400010) [WState Stopped];
          mkPoll 20 (mkWaitEnv 20 None 20) [WAlive false]])) = Ret tt /\
  alive (fst (snd (shutdown false (busy,
         [mkPoll 10 (mkWaitEnv 10 None 400010) [WState Stopped];
          mkPoll 20 (mkWaitEnv 20 None 20) [WAlive false]])))) = false /\
  fst (shutdown true (Service.init 0, [])) = Raise RuntimeError.
Proof.
  destruct (shutdown_result (busy,
              [mkPoll 10 (mkWaitEnv 10 None 400010) [WState Stopped];
               mkPoll 20 (mkWaitEnv 20 None 20) [WAlive false]]))
    as (_ & Hret & _).
  destruct (shutdown_result (Service.init 0, []))
    as (_ & _ & _ & _ & _ & _ & Hown).
  split; [reflexivity|]. split; [exact (Hret eq_refl)|].
  rewrite (Hown eq_refl). reflexivity.
Defined.

End CallerMore.

(* ------------------------------------------------------------------ *)
(** ** More on the manager *)

Section ManagerMore.
Import ServiceManager.

Ltac step_prog :=
  unfold bind, read, modify, ret, raise;
  cbn [fst snd heap svcs refs trace tape set_refs set_svcs set_heap emit set_tape].

Lemma unregister_unknown name w :
  PyDict.get name (svcs w) = None -> unregister name w = (Raise KeyError, w).
Proof.
  intros Hs. unfold unregister, contains, PyDict.contains. step_prog.
  rewrite Hs. reflexivity.
Qed.

(** X10.  A name the manager does not know is a [KeyError] for
    [unregister], [get], [put] and [borrow] alike; nothing is changed, no
    service is touched, and the block of a [borrow] is not entered. *)
Theorem unknown_name_is_a_key_error (name : string) (w : World) :
  PyDict.get name (svcs w) = None ->
  unregister name w = (Raise KeyError, w) /\
  (forall ready, get name ready w = (Raise KeyError, w)) /\
  put name w = (Raise KeyError, w) /\
  (forall A (body : ObjId -> Prog World A),
     borrow name body w = (Raise KeyError, w)).
Proof.
  intros Hs. split; [apply unregister_unknown; assumption|].
  split; [intros ready; apply get_unknown; assumption|].
  split; [apply put_unknown; assumption|].
  intros A body. unfold borrow, bind. rewrite (get_unknown name true w Hs).
  reflexivity.
Qed.

Lemma unknown_name_is_a_key_error_witness :
  PyDict.get "mqtt" (svcs live_world) = None /\
  get "mqtt" true live_world = (Raise KeyError, live_world) /\
  borrow "mqtt" failing_block live_world = (Raise KeyError, live_world).
Proof.
  destruct (unknown_name_is_a_key_error "mqtt" live_world eq_refl)
    as (_ & Hget & _ & Hborrow).
  split; [reflexivity|]. split; [exact (Hget true) | exact (Hborrow unit failing_block)].
Defined.

Lemma del_set_new {V} k (v : V) (d : PyDict.t V) :
  PyDict.get k d = None -> PyDict.del k (PyDict.set k v d) = d.
Proof.
  induction d as [|[k' v'] d IH]; simpl.
  - rewrite String.eqb_refl. reflexivity.
  - destruct (String.eqb k k') eqn:E; [discriminate|].
    intros H. simpl. rewrite E, IH; auto.
Qed.


(** X11.  Registering a new name and unregistering it again is a round
    trip: [register] returns, the name then maps to the service with a count
    of zero, [unregister] returns, and the two maps are what they were; the
    service is neither started nor stopped by either call. *)
Theorem register_then_unregister (name : string) (o : ObjId) (w : World) :
  PyDict.get name (svcs w) = None ->
  PyDict.get name (refs w) = None ->
  fst (register name o w) = Ret tt /\
  PyDict.get name (svcs (snd (register name o w))) = Some o /\
  refcount name (snd (register name o w)) = Some 0 /\
  fst (unregister name (snd (register name o w))) = Ret tt /\
  svcs (snd (unregister name (snd (register name o w)))) = svcs w /\
  refs (snd (unregister name (snd (register name o w)))) = refs w /\
  heap (snd (unregister name (snd (register name o w)))) = heap w /\
  trace (snd (unregister name (snd (register name o w)))) = trace w.
Proof.
  intros Hs Hr.
  assert (Hreg : register name o w
                 = (Ret tt, set_refs (PyDict.set name 0 (refs w))
                              (set_svcs (PyDict.set name o (svcs w)) w))).
  { unfold register, contains, PyDict.contains, refs_setitem. step_prog.
    rewrite Hs. reflexivity. }
  rewrite Hreg. cbn [fst snd]. unfold refcount. cbn [svcs refs set_refs set_svcs].
  rewrite !get_set_same.
  assert (Hun : unregister name
                  (set_refs (PyDict.set name 0 (refs w))
                     (set_svcs (PyDict.set name o (svcs w)) w))
                = (Ret tt, set_refs (PyDict.del name (PyDict.set name 0 (refs w)))
                             (set_svcs (PyDict.del name (PyDict.set name o (svcs w)))
                                w))).
  { unfold unregister, contains, PyDict.contains, refs_getitem. step_prog.
    rewrite get_set_same. cbn [negb]. step_prog.
    rewrite get_set_same. reflexivity. }
  rewrite Hun. cbn [fst snd svcs refs heap trace set_refs set_svcs].
  rewrite !del_set_new by assumption. repeat split.
Qed.

Lemma register_then_unregister_witness :
  PyDict.get "mqtt" (svcs live_world) = None /\
  fst (register "mqtt" 3%nat live_world) = Ret tt /\
  svcs (snd (unregister "mqtt" (snd (register "mqtt" 3%nat live_world))))
  = svcs live_world /\
  refs (snd (unregister "mqtt" (snd (register "mqtt" 3%nat live_world))))
  = refs live_world.
Proof.
  destruct (register_then_unregister "mqtt" 3%nat live_world eq_refl eq_refl)
    as (Hreg & _ & _ & _ & Hs & Hr & _).
  split; [reflexivity|]. split; [exact Hreg|]. split; [exact Hs | exact Hr].
Defined.







Lemma get_unready name o r w :
  PyDict.get name (svcs w) = Some o ->
  PyDict.get name (refs w) = Some r ->
  fst (get name false w) = Ret o /\
  svcs (snd (get name false w)) = svcs w /\
  refs (snd (get name false w)) = PyDict.set name (r + 1) (refs w) /\
  tape (snd (get name false w)) = tape w /\
  trace (snd (get name false w))
  = trace w ++ (if r =? 0 then [Call o MStart] else []) /\
  heap (snd (get name false w))
  = if r =? 0 then upd o Service.start (heap w) else heap w.
Proof.
  intros Hs Hr. rewrite (get_registered name false o r w Hs Hr). cbv zeta.
  replace (r + 1 =? 1) with (r =? 0)
    by (destruct (Z.eqb_spec r 0), (Z.eqb_spec (r + 1) 1); auto; lia).
  destruct (r =? 0); simpl; repeat split. rewrite app_nil_r. reflexivity.
Qed.

Lemma gets_add_up name o (k : nat) : forall r w,
  PyDict.get name (svcs w) = Some o ->
  PyDict.get name (refs w) = Some r ->
  0 <= r ->
  let w1 := perform_all (repeat (OGet name false) k) w in
  svcs w1 = svcs w /\
  refs w1 = PyDict.set name (r + Z.of_nat k) (refs w) /\
  tape w1 = tape w /\
  trace w1 = trace w ++ (if (r =? 0) && negb (Nat.eqb k 0)
                        then [Call o MStart] else []).
Proof.
  induction k as [|k IH]; intros r w Hs Hr H0; cbv zeta.
  - simpl. rewrite Z.add_0_r, andb_false_r, app_nil_r.
    rewrite (set_get_id name r (refs w) Hr). auto.
  - cbn [repeat perform_all perform]. unfold bind.
    destruct (get_unready name o r w Hs Hr) as (Ho & Hs1 & Hr1 & Ht1 & Htr1 & _).
    destruct (get name false w) as [out w'] eqn:Hg. cbn [fst snd] in *.
    subst out. unfold ret. cbn [snd].
    assert (Hs' : PyDict.get name (svcs w') = Some o) by congruence.
    assert (Hr' : PyDict.get name (refs w') = Some (r + 1))
      by (rewrite Hr1; apply get_set_same).
    destruct (IH (r + 1) w' Hs' Hr' ltac:(lia)) as (Hs2 & Hr2 & Ht2 & Htr2).
    rewrite Hs2, Hr2, Ht2, Htr2, Hs1, Hr1, Ht1, Htr1, set_set.
    repeat split.
    + f_equal. lia.
    + replace (r + 1 =? 0) with false by (symmetry; apply Z.eqb_neq; lia).
      cbn [andb negb Nat.eqb]. rewrite app_nil_r, andb_true_r. reflexivity.
Qed.

Lemma puts_take_off name o (k : nat) : forall r w,
  PyDict.get name (svcs w) = Some o ->
  PyDict.get name (refs w) = Some (r + Z.of_nat k) ->
  0 <= r ->
  let w2 := perform_all (repeat (OPut name) k) w in
  svcs w2 = svcs w /\
  refs w2 = PyDict.set name r (refs w) /\
  tape w2 = tape w /\
  trace w2 = trace w ++ (if (r =? 0) && negb (Nat.eqb k 0)
                        then [Call o MStop] else []).
Proof.
  induction k as [|k IH]; intros r w Hs Hr H0; cbv zeta.
  - simpl in *. rewrite Z.add_0_r in Hr. rewrite andb_false_r, app_nil_r.
    rewrite (set_get_id name r (refs w) Hr). auto.
  - cbn [repeat perform_all perform].
    assert (Hnz : r + Z.of_nat (S k) <> 0) by lia.
    rewrite (put_released name o _ w Hs Hr Hnz). cbv zeta. cbn [snd].
    replace (r + Z.of_nat (S k) - 1) with (r + Z.of_nat k) by lia.
    set (w' := if r + Z.of_nat k =? 0
               then snd (call_now o MStop Service.stop
                           (set_refs (PyDict.set name (r + Z.of_nat k) (refs w)) w))
               else set_refs (PyDict.set name (r + Z.of_nat k) (refs w)) w).
    assert (Hs1 : svcs w' = svcs w)
      by (subst w'; destruct (r + Z.of_nat k =? 0); reflexivity).
    assert (Hr1 : refs w' = PyDict.set name (r + Z.of_nat k) (refs w))
      by (subst w'; destruct (r + Z.of_nat k =? 0); reflexivity).
    assert (Ht1 : tape w' = tape w)
      by (subst w'; destruct (r + Z.of_nat k =? 0); reflexivity).
    assert (Htr1 : trace w' = trace w ++ (if r + Z.of_nat k =? 0
                                          then [Call o MStop] else []))
      by (subst w'; destruct (r + Z.of_nat k =? 0); simpl;
          [reflexivity | rewrite app_nil_r; reflexivity]).
    assert (Hs' : PyDict.get name (svcs w') = Some o) by congruence.
    assert (Hr' : PyDict.get name (refs w') = Some (r + Z.of_nat k))
      by (rewrite Hr1; apply get_set_same).
    destruct (IH r w' Hs' Hr' H0) as (Hs2 & Hr2 & Ht2 & Htr2).
    rewrite Hs2, Hr2, Ht2, Htr2, Hs1, Hr1, Ht1, Htr1, set_set.
    repeat split. rewrite <- app_assoc. f_equal.
    cbn [negb Nat.eqb]. rewrite andb_true_r.
    destruct (Z.eqb_spec r 0) as [Hz|Hz]; destruct k as [|k'];
      cbn [andb negb Nat.eqb].
    + subst r. reflexivity.
    + replace (r + Z.of_nat (S k') =? 0) with false
        by (symmetry; apply Z.eqb_neq; lia). reflexivity.
    + replace (r + Z.of_nat 0 =? 0) with false
        by (symmetry; apply Z.eqb_neq; lia). reflexivity.
    + replace (r + Z.of_nat (S k') =? 0) with false
        by (symmetry; apply Z.eqb_neq; lia). reflexivity.
Qed.

(** X13.  References balance.  On a registered name with count [r], [k]
    calls of [get(name, ready=False)] all return without waiting and leave
    the count at [r + k]; the service is started by the first of them only,
    and only if [r] was zero.  [k] calls of [put] then bring the two maps
    back to what they were; the service is stopped by the last of them only,
    and only if [r] is zero. *)
Theorem references_balance (k : nat) (name : string) (o : ObjId) (r : Z)
    (w : World) :
  PyDict.get name (svcs w) = Some o ->
  refcount name w = Some r ->
  0 <= r ->
  let w1 := perform_all (repeat (OGet name false) k) w in
  let w2 := perform_all (repeat (OPut name) k) w1 in
  refcount name w1 = Some (r + Z.of_nat k) /\
  tape w1 = tape w /\
  trace w1 = trace w ++ (if (r =? 0) && negb (Nat.eqb k 0)
                        then [Call o MStart] else []) /\
  svcs w2 = svcs w /\ refs w2 = refs w /\
  trace w2 = trace w1 ++ (if (r =? 0) && negb (Nat.eqb k 0)
                         then [Call o MStop] else []).
Proof.
  intros Hs Hr H0 w1 w2. unfold refcount in *.
  destruct (gets_add_up name o k r w Hs Hr H0) as (Hs1 & Hr1 & Ht1 & Htr1).
  fold w1 in Hs1, Hr1, Ht1, Htr1.
  assert (Hs' : PyDict.get name (svcs w1) = Some o) by congruence.
  assert (Hr' : PyDict.get name (refs w1) = Some (r + Z.of_nat k))
    by (rewrite Hr1; apply get_set_same).
  destruct (puts_take_off name o k r w1 Hs' Hr' H0) as (Hs2 & Hr2 & _ & Htr2).
  fold w2 in Hs2, Hr2, Htr2.
  split; [exact Hr'|]. split; [exact Ht1|]. split; [exact Htr1|].
  split; [congruence|]. split; [|exact Htr2].
  rewrite Hr2, Hr1, set_set. apply set_get_id. exact Hr.
Qed.

Lemma references_balance_witness :
  refcount "cam" live_world = Some 0 /\
  refcount "cam" (perform_all (repeat (OGet "cam" false) 3) live_world)
  = Some 3 /\
  trace (perform_all (repeat (OPut "cam") 3)
           (perform_all (repeat (OGet "cam" false) 3) live_world))
  = [Call 7%nat MStart; Call 7%nat MStop] /\
  refs (perform_all (repeat (OPut "cam") 3)
          (perform_all (repeat (OGet "cam" false) 3) live_world))
  = refs live_world.
Proof.
  destruct (references_balance 3 "cam" 7%nat 0 live_world
              eq_refl eq_refl (Z.le_refl 0)) as (Hc & _ & _ & _ & Hr & _).
  split; [reflexivity|]. split; [exact Hc|]. split; [reflexivity | exact Hr].
Defined.







Lemma call_now_at o m f w :
  call_now o m f w
  = (Ret tt, set_heap (upd o f (heap (emit (Call o m) w))) (emit (Call o m) w)).
Proof. reflexivity. Qed.












End ManagerMore.

(* ------------------------------------------------------------------ *)
(** ** The handlers *)

Section HandlerFacts.
Import Handlers.

Lemma remove_absent h hs : ~ In h hs -> remove h hs = None.
Proof.
  induction hs as [|x xs IH]; intros Hn; [reflexivity|]. cbn [remove].
  destruct (Nat.eqb_spec x h) as [->|Hne].
  - exfalso. apply Hn. left. reflexivity.
  - rewrite IH; [reflexivity|]. intros H. apply Hn. right. exact H.
Qed.

Lemma remove_present h hs : In h hs -> exists hs', remove h hs = Some hs'.
Proof.
  induction hs as [|x xs IH]; intros Hin; [destruct Hin|]. cbn [remove].
  destruct (Nat.eqb_spec x h) as [->|Hne]; [eauto|].
  destruct Hin as [Heq | Hin]; [congruence|].
  destruct (IH Hin) as [hs' ->]. eauto.
Qed.

(** Removing [h] from a list it was appended to. *)
Lemma remove_appended h hs :
  remove h (hs ++ [h])
  = Some (match remove h hs with Some hs' => hs' ++ [h] | None => hs end).
Proof.
  induction hs as [|x xs IH]; cbn [app remove].
  - rewrite Nat.eqb_refl. reflexivity.
  - destruct (Nat.eqb x h); [reflexivity|]. rewrite IH.
    destruct (remove h xs); reflexivity.
Qed.

Lemma remove_count h hs hs' x :
  remove h hs = Some hs' ->
  count_occ Nat.eq_dec hs x
  = (count_occ Nat.eq_dec hs' x + if Nat.eqb h x then 1 else 0)%nat.
Proof.
  revert hs'. induction hs as [|y ys IH]; intros hs' H; [discriminate|].
  cbn [remove] in H. destruct (Nat.eqb_spec y h) as [->|Hne].
  - inversion H; subst. cbn [count_occ].
    destruct (Nat.eq_dec h x) as [E|E];
      destruct (Nat.eqb_spec h x); try congruence; lia.
  - destruct (remove h ys) as [ys'|]; [|discriminate]. inversion H; subst.
    cbn [count_occ]. rewrite (IH ys' eq_refl).
    destruct (Nat.eq_dec y x); lia.
Qed.

Lemma count_one h x :
  count_occ Nat.eq_dec [h] x = if Nat.eqb h x then 1%nat else 0%nat.
Proof.
  cbn [count_occ]. destruct (Nat.eq_dec h x) as [E|E];
    destruct (Nat.eqb_spec h x); congruence.
Qed.

(** X16.  [tap] puts the handlers back.  When the block ends, by return or
    by an exception, with the handler list as [tap] gave it to it, [tap]
    ends the same way and every handler is registered as often as before.
    The list itself is what it was when the handler was not on it before;
    a handler that was already on it has moved to the end, since it is the
    first of the equal entries that goes. *)
Theorem tap_puts_the_handlers_back {R A} (h : Handler) (body : Prog (t R) A)
    (s : t R) :
  let s0 := set_handlers (handlers s ++ [h]) s in
  fst (body s0) <> Blocked ->
  handlers (snd (body s0)) = handlers s0 ->
  fst (tap h body s) = fst (body s0) /\
  rest (snd (tap h body s)) = rest (snd (body s0)) /\
  (forall x, count_occ Nat.eq_dec (handlers (snd (tap h body s))) x
             = count_occ Nat.eq_dec (handlers s) x) /\
  (~ In h (handlers s) -> handlers (snd (tap h body s)) = handlers s) /\
  (forall hs', remove h (handlers s) = Some hs' ->
               handlers (snd (tap h body s)) = hs' ++ [h]).
Proof.
  intros s0 Hb Hk. unfold tap, handlers_append. rewrite bind_at, modify_at.
  fold s0. unfold try_finally.
  destruct (body s0) as [[a|e|] s1]; cbn [fst snd] in *; [| |congruence].
  - rewrite bind_at. unfold handlers_remove. rewrite bind_at.
    change (read s1) with (Ret s1, s1). cbv iota. rewrite Hk.
    subst s0. cbn [handlers set_handlers]. rewrite remove_appended.
    rewrite modify_at. unfold ret. cbn [fst snd handlers rest set_handlers].
    split; [reflexivity|]. split; [reflexivity|].
    destruct (remove h (handlers s)) as [hs'|] eqn:E.
    + split; [|split].
      * intros x. rewrite (remove_count h (handlers s) hs' x E), count_occ_app.
        rewrite count_one. reflexivity.
      * intros Hn. rewrite (remove_absent h _ Hn) in E. discriminate.
      * intros hs'' H. inversion H. reflexivity.
    + split; [reflexivity|]. split; [reflexivity | discriminate].
  - rewrite bind_at. unfold handlers_remove. rewrite bind_at.
    change (read s1) with (Ret s1, s1). cbv iota. rewrite Hk.
    subst s0. cbn [handlers set_handlers]. rewrite remove_appended.
    rewrite modify_at. unfold raise. cbn [fst snd handlers rest set_handlers].
    split; [reflexivity|]. split; [reflexivity|].
    destruct (remove h (handlers s)) as [hs'|] eqn:E.
    + split; [|split].
      * intros x. rewrite (remove_count h (handlers s) hs' x E), count_occ_app.
        rewrite count_one. reflexivity.
      * intros Hn. rewrite (remove_absent h _ Hn) in E. discriminate.
      * intros hs'' H. inversion H. reflexivity.
    + split; [reflexivity|]. split; [reflexivity | discriminate].
Qed.

Lemma tap_puts_the_handlers_back_witness :
  fst (tap 4%nat quiet_block (mk [4%nat; 9%nat] 0%nat)) = Ret 0%nat /\
  handlers (snd (tap 4%nat quiet_block (mk [4%nat; 9%nat] 0%nat)))
  = [9%nat; 4%nat].
Proof.
  destruct (tap_puts_the_handlers_back 4%nat quiet_block (mk [4%nat; 9%nat] 0%nat))
    as (Ho & _ & _ & _ & Hm).
  - discriminate.
  - reflexivity.
  - split; [exact Ho|]. exact (Hm [9%nat] eq_refl).
Defined.

(** X17.  A block that ends with the handler no longer on the list makes
    [tap] raise [ValueError], whatever the block returned or raised itself:
    the exception of the block is lost, and the state is as the block left
    it. *)
Theorem tap_of_a_removed_handler {R A} (h : Handler) (body : Prog (t R) A)
    (s : t R) :
  let s0 := set_handlers (handlers s ++ [h]) s in
  fst (body s0) <> Blocked ->
  ~ In h (handlers (snd (body s0))) ->
  tap h body s = (Raise ValueError, snd (body s0)).
Proof.
  intros s0 Hb Hn. unfold tap, handlers_append. rewrite bind_at, modify_at.
  fold s0. unfold try_finally.
  destruct (body s0) as [[a|e|] s1]; cbn [fst snd] in *; [| |congruence];
    rewrite bind_at; unfold handlers_remove; rewrite bind_at;
    change (read s1) with (Ret s1, s1); cbv iota;
    rewrite (remove_absent h _ Hn); reflexivity.
Qed.

Lemma tap_of_a_removed_handler_witness :
  tap 4%nat (untapping_block 4%nat) (mk [9%nat] 0%nat)
  = (Raise ValueError, mk [9%nat] 0%nat).
Proof.
  apply (tap_of_a_removed_handler 4%nat (untapping_block 4%nat) (mk [9%nat] 0%nat)).
  - discriminate.
  - simpl. intuition discriminate.
Defined.

End HandlerFacts.

(* ------------------------------------------------------------------ *)
(** ** The update notifier *)

Section NotifierFacts.
Import UpdateNotifierService.

Lemma last_default (a : Z) (l : list Z) (d d' : Z) :
  last (a :: l) d = last (a :: l) d'.
Proof.
  revert a. induction l as [|b l IH]; intros a; [reflexivity|].
  change (last (b :: l) d = last (b :: l) d'). apply IH.
Qed.

Lemma apart_snoc t ts x :
  apart t ts -> last ts t + seconds 1 < x -> apart t (ts ++ [x]).
Proof.
  revert t. induction ts as [|y ys IH]; intros t Ha Hx.
  - simpl in *. auto.
  - cbn [app apart]. destruct Ha as [Hy Ha]. split; [exact Hy|].
    apply IH; [exact Ha|]. destruct ys as [|z ys]; [exact Hx|].
    rewrite (last_default z ys y t). exact Hx.
Qed.

Lemma last_snoc (ts : list Z) (x t : Z) : last (ts ++ [x]) t = x.
Proof. apply last_last. Qed.

(** What a call of [worker_run] does to the holdoff and to the samples. *)
Lemma worker_run_samples e timeout s :
  let s' := snd (worker_run e timeout s) in
  if Holdoff.passed (t_passed e) (holdoff s)
  then holdoff s' = Holdoff.mk (t_reset e + seconds 1) /\
       sampled s' = sampled s ++ [t_reset e]
  else holdoff s' = holdoff s /\ sampled s' = sampled s.
Proof.
  cbv zeta. unfold worker_run. rewrite bind_at.
  change (read s) with (Ret s, s). cbv iota.
  destruct (Holdoff.passed (t_passed e) (holdoff s)).
  - unfold bind, modify, ret, on_service. cbn [fst snd].
    destruct (publish e) as [[]| |]; cbn [fst snd]; try (split; reflexivity).
    destruct (Service.idle (Some timeout) _) as [[r| |] c]; split; reflexivity.
  - unfold bind, ret, on_service. cbn [fst snd].
    destruct (Service.idle (Some timeout) _) as [[r| |] c]; split; reflexivity.
Qed.

Lemma calls_keep_apart t1 : forall es s,
  apart t1 (sampled s) ->
  Holdoff.deadline (holdoff s) = last (sampled s) t1 + seconds 1 ->
  clock_order (last (sampled s) t1) es ->
  apart t1 (sampled (calls es s)).
Proof.
  induction es as [|e es IH]; intros s Ha Hd Hc; [exact Ha|].
  cbn [calls]. destruct Hc as (H1 & H2 & Hc).
  pose proof (worker_run_samples e (tenths 1) (set_service (found e) s)) as Hw.
  cbv zeta in Hw. change (holdoff (set_service (found e) s)) with (holdoff s) in Hw.
  change (sampled (set_service (found e) s)) with (sampled s) in Hw.
  destruct (Holdoff.passed (t_passed e) (holdoff s)) eqn:Hp.
  - destruct Hw as [Hh Hs]. unfold Holdoff.passed, Holdoff.remaining in Hp.
    apply Z.ltb_lt in Hp.
    apply IH.
    + rewrite Hs. apply apart_snoc; [exact Ha | lia].
    + rewrite Hh, Hs, last_snoc. reflexivity.
    + rewrite Hs, last_snoc. exact Hc.
  - destruct Hw as [Hh Hs]. apply IH.
    + rewrite Hs. exact Ha.
    + rewrite Hh, Hs. exact Hd.
    + rewrite Hs. clear - H1 H2 Hc. destruct es as [|e' es']; [exact I|].
      destruct Hc as (H3 & H4 & Hc). split; [lia|]. split; assumption.
Qed.

(** X18.  Samples are taken at most once a second.  With a clock that does
    not go back, the samples of any run of calls of [worker_run] after
    [worker_init] are each more than a second after the one before, and the
    first more than a second after [worker_init]; this holds whatever the
    calls return or raise, and whatever reading [stats.json] did. *)
Theorem samples_are_a_second_apart (t0 t1 : Z) (load : Outcome unit)
    (c : Service.Caller) (es : list RunEnv) :
  clock_order t1 es ->
  apart t1 (sampled (calls es (snd (worker_init t0 t1 load c)))).
Proof.
  intros Hc.
  assert (Hi : holdoff (snd (worker_init t0 t1 load c))
               = Holdoff.mk (t1 + seconds 1) /\
               sampled (snd (worker_init t0 t1 load c)) = []).
  { unfold worker_init, try_except.
    destruct load as [[]|x|]; cbn [fst snd]; try (split; reflexivity).
    destruct (isinstance x OSError); split; reflexivity. }
  destruct Hi as [Hh Hs].
  apply calls_keep_apart.
  - rewrite Hs. exact I.
  - rewrite Hh, Hs. reflexivity.
  - rewrite Hs. exact Hc.
Qed.

Lemma samples_are_a_second_apart_witness :
  apart 0 (sampled (calls four_calls
                      (snd (worker_init 0 0 (Raise OSError) (idling, []))))) /\
  sampled (calls four_calls (snd (worker_init 0 0 (Raise OSError) (idling, []))))
  = [1000300; 2000500].
Proof.
  split; [|reflexivity].
  apply (samples_are_a_second_apart 0 0 (Raise OSError) (idling, []) four_calls).
  simpl. lia.
Defined.

End NotifierFacts.

(* ------------------------------------------------------------------ *)
(** ** The stream *)

Section StreamFacts.
Import ServiceManager Handlers Stream.

Lemma on_manager_at {A} (m : Prog World A) (s : St) :
  on_manager m s = (fst (m (manager s)), set_manager (snd (m (manager s))) s).
Proof. unfold on_manager. destruct (m (manager s)). reflexivity. Qed.

(** [tap] in terms of its block. *)
Lemma tap_at {R A} (h : Handler) (body : Prog (t R) A) (s : t R) :
  tap h body s
  = match body (set_handlers (handlers s ++ [h]) s) with
    | (Blocked, s1) => (Blocked, s1)
    | (out, s1) =>
        match remove h (handlers s1) with
        | Some hs => (out, set_handlers hs s1)
        | None => (Raise ValueError, s1)
        end
    end.
Proof.
  unfold tap, handlers_append. rewrite bind_at, modify_at. unfold try_finally.
  destruct (body _) as [[a|e|] s1]; [| |reflexivity];
    rewrite bind_at; unfold handlers_remove; rewrite bind_at;
    change (read s1) with (Ret s1, s1); cbv iota;
    destruct (remove h (handlers s1)); reflexivity.
Qed.

(** The loop of the generator touches neither the registry nor the
    handlers; it gives out a first part of the items of the queue; it raises
    what the queue raised, or the exit thrown in by a consumer that closes;
    and it returns only with the service no longer running. *)
Lemma pump_frame (svc : ObjId) : forall turns (s : St),
  handlers (snd (pump svc turns s)) = handlers s /\
  svcs (manager (snd (pump svc turns s))) = svcs (manager s) /\
  refs (manager (snd (pump svc turns s))) = refs (manager s) /\
  (exists k, yielded (rest (snd (pump svc turns s)))
             = yielded (rest s) ++ firstn k (items_of turns)) /\
  (forall e, fst (pump svc turns s) = Raise e ->
             (e = BaseException /\ exists tn, In tn turns /\ closes tn = true) \/
             (exists tn, In tn turns /\ got tn = Fails e)) /\
  (fst (pump svc turns s) = Ret tt ->
   Service.state (heap (manager (snd (pump svc turns s))) svc) <> Running).
Proof.
  induction turns as [|tn more IH]; intros s.
  - cbn [pump]. rewrite bind_at. change (read s) with (Ret s, s). cbv iota.
    destruct (Service.state (heap (manager s) svc)) eqn:E; cbn [RunState_eqb negb];
      unfold ret; cbn [fst snd];
      (split; [reflexivity|]); (split; [reflexivity|]); (split; [reflexivity|]);
      (split; [exists O; rewrite app_nil_r; reflexivity|]);
      (split; [discriminate|]); try discriminate; intros _; rewrite E; discriminate.
  - cbn [pump]. rewrite bind_at. change (read s) with (Ret s, s). cbv iota.
    assert (Hstop : Service.state (heap (manager s) svc) <> Running ->
              handlers (snd (ret tt s)) = handlers s /\
              svcs (manager (snd (ret tt s))) = svcs (manager s) /\
              refs (manager (snd (ret tt s))) = refs (manager s) /\
              (exists k, yielded (rest (snd (ret tt s)))
                         = yielded (rest s) ++ firstn k (items_of (tn :: more))) /\
              (forall e, fst (@ret St unit tt s) = Raise e ->
                 (e = BaseException /\
                  exists tn0, In tn0 (tn :: more) /\ closes tn0 = true) \/
                 (exists tn0, In tn0 (tn :: more) /\ got tn0 = Fails e)) /\
              (fst (@ret St unit tt s) = Ret tt ->
               Service.state (heap (manager (snd (@ret St unit tt s))) svc)
               <> Running)).
    { intros Hne. unfold ret. cbn [fst snd].
      split; [reflexivity|]. split; [reflexivity|]. split; [reflexivity|].
      split; [exists O; rewrite app_nil_r; reflexivity|].
      split; [discriminate|]. intros _. exact Hne. }
    destruct (Service.state (heap (manager s) svc)) eqn:E; cbn [RunState_eqb negb];
      try (apply Hstop; discriminate).
    clear Hstop. unfold items_of. cbn [flat_map]. fold (items_of more).
    destruct (got tn) as [d|e0] eqn:G.
    + rewrite bind_at. unfold give. rewrite modify_at.
      set (s1 := mk (handlers s) (mkRest (manager s) (yielded (rest s) ++ [d]))).
      destruct (closes tn) eqn:C.
      * unfold raise. cbn [fst snd].
        split; [reflexivity|]. split; [reflexivity|]. split; [reflexivity|].
        split; [exists 1%nat; reflexivity|].
        split; [|discriminate].
        intros e He. inversion He; subst. left. split; [reflexivity|].
        exists tn. split; [left; reflexivity | exact C].
      * rewrite bind_at. unfold others. rewrite modify_at.
        set (s2 := set_manager _ s1).
        destruct (IH s2) as (Hh & Hs & Hr & [k Hk] & Hraise & Hret).
        split; [rewrite Hh; reflexivity|].
        split; [rewrite Hs; reflexivity|].
        split; [rewrite Hr; reflexivity|].
        split; [exists (S k); rewrite Hk; subst s2 s1; cbn [app firstn rest yielded set_manager];
                rewrite <- app_assoc; reflexivity|].
        split; [|exact Hret].
        intros e He. destruct (Hraise e He) as [[-> (tn0 & Hin & Hc)] | (tn0 & Hin & Hg)].
        -- left. split; [reflexivity|]. exists tn0. split; [right; exact Hin | exact Hc].
        -- right. exists tn0. split; [right; exact Hin | exact Hg].
    + unfold raise. cbn [fst snd app].
      split; [reflexivity|]. split; [reflexivity|]. split; [reflexivity|].
      split; [exists O; rewrite app_nil_r; reflexivity|].
      split; [|discriminate].
      intros e He. inversion He; subst. right. exists tn.
      split; [left; reflexivity | exact G].
Qed.

(** Giving back a reference taken by a [get] that found the count at [r]. *)
Lemma put_after_get name o r w0 w :
  PyDict.get name (svcs w0) = Some o ->
  PyDict.get name (refs w0) = Some r ->
  0 <= r ->
  svcs w = svcs w0 ->
  refs w = PyDict.set name (r + 1) (refs w0) ->
  fst (put name w) = Ret tt /\
  svcs (snd (put name w)) = svcs w0 /\
  refs (snd (put name w)) = refs w0.
Proof.
  intros Hs Hr Hr0 Hsw Hrw.
  assert (Hs' : PyDict.get name (svcs w) = Some o) by (rewrite Hsw; exact Hs).
  assert (Hr' : PyDict.get name (refs w) = Some (r + 1))
    by (rewrite Hrw; apply get_set_same).
  rewrite (put_released name o (r + 1) w Hs' Hr') by lia. cbv zeta. cbn [fst snd].
  split; [reflexivity|].
  assert (Hback : PyDict.set name (r + 1 - 1) (refs w) = refs w0).
  { rewrite Hrw, set_set. replace (r + 1 - 1) with r by lia.
    apply set_get_id. exact Hr. }
  destruct (r + 1 - 1 =? 0); [rewrite call_now_at|];
    cbn [snd svcs refs set_heap emit set_refs]; split; assumption.
Qed.

(** [borrow] of the generator is the [borrow] of the manager when the
    block stays within the manager. *)
Lemma borrow_agrees {A} name (body : ObjId -> Prog World A) (s : St) :
  Stream.borrow name (fun svc => on_manager (body svc)) s
  = on_manager (ServiceManager.borrow name body) s.
Proof.
  unfold Stream.borrow, ServiceManager.borrow.
  rewrite bind_at, !on_manager_at, bind_at.
  destruct (get name true (manager s)) as [[svc|e|] w1]; cbn [fst snd];
    try reflexivity.
  unfold try_finally. rewrite on_manager_at.
  change (manager (set_manager w1 s)) with w1.
  destruct (body svc w1) as [[a|e|] w2]; cbn [fst snd]; try reflexivity;
    rewrite !bind_at, on_manager_at;
    change (manager (set_manager w2 (set_manager w1 s))) with w2;
    destruct (put name w2) as [[[]|e'|] w3]; reflexivity.
Qed.

(** The borrowed, tapped loop of [stream]. *)
Lemma borrowed_pump name o r h turns (s : St) :
  PyDict.get name (svcs (manager s)) = Some o ->
  PyDict.get name (refs (manager s)) = Some r ->
  0 <= r ->
  ~ In h (handlers s) ->
  let res := borrow name (fun svc => tap h (pump svc turns)) s in
  fst res <> Blocked ->
  svcs (manager (snd res)) = svcs (manager s) /\
  refs (manager (snd res)) = refs (manager s) /\
  handlers (snd res) = handlers s /\
  (exists k, yielded (rest (snd res))
             = yielded (rest s) ++ firstn k (items_of turns)) /\
  (forall e, fst res = Raise e ->
     e = ServiceStoppedError \/
     (e = BaseException /\ exists tn, In tn turns /\ closes tn = true) \/
     (exists tn, In tn turns /\ got tn = Fails e)).
Proof.
  intros Hs Hr Hr0 Hfresh. cbv zeta. unfold borrow.
  rewrite bind_at, on_manager_at.
  destruct (get_ready_cases name o r (manager s) Hs Hr Hr0) as (Hsv & Hcases).
  cbv zeta in Hcases.
  destruct (get name true (manager s)) as [out w1]. cbn [fst snd] in *.
  destruct Hcases as [(Ho & Hrf & _) | [(Ho & Hrf & _) | (Ho & _)]]; subst out.
  - unfold try_finally. rewrite tap_at.
    set (s1 := set_manager w1 s).
    set (s0 := set_handlers (handlers s1 ++ [h]) s1).
    destruct (pump_frame o turns s0) as (Hh & Hps & Hpr & Hk & Hraise & _).
    destruct (pump o turns s0) as [outp s2]. cbn [fst snd] in *.
    assert (Hrem : remove h (handlers s2) = Some (handlers s)).
    { rewrite Hh. subst s0 s1. cbn [handlers set_handlers set_manager].
      rewrite remove_appended, (remove_absent h _ Hfresh). reflexivity. }
    rewrite Hrem.
    assert (Hput : fst (put name (manager s2)) = Ret tt /\
                   svcs (snd (put name (manager s2))) = svcs (manager s) /\
                   refs (snd (put name (manager s2))) = refs (manager s)).
    { apply (put_after_get name o r (manager s) (manager s2) Hs Hr Hr0).
      - rewrite Hps. subst s0 s1. exact Hsv.
      - rewrite Hpr. subst s0 s1. exact Hrf. }
    destruct Hput as (Hpo & Hpsv & Hprf).
    assert (Hy : yielded (rest s0) = yielded (rest s)) by reflexivity.
    rewrite Hy in Hk.
    destruct outp as [[]|e|]; cbn [fst snd].
    + rewrite bind_at, on_manager_at.
      change (manager (set_handlers (handlers s) s2)) with (manager s2).
      rewrite Hpo. unfold ret. cbn [fst snd]. intros _.
      split; [exact Hpsv|]. split; [exact Hprf|]. split; [reflexivity|].
      split; [exact Hk | discriminate].
    + rewrite bind_at, on_manager_at.
      change (manager (set_handlers (handlers s) s2)) with (manager s2).
      rewrite Hpo. unfold raise. cbn [fst snd]. intros _.
      split; [exact Hpsv|]. split; [exact Hprf|]. split; [reflexivity|].
      split; [exact Hk|].
      intros e' He'. inversion He'; subst e'. right. exact (Hraise e eq_refl).
    + intros H. exfalso. apply H. reflexivity.
  - intros _. cbn [fst snd].
    split; [exact Hsv|]. split; [exact Hrf|]. split; [reflexivity|].
    split; [exists O; rewrite app_nil_r; reflexivity|].
    intros e He. inversion He. left. reflexivity.
  - intros H. exfalso. apply H. reflexivity.
Qed.

Lemma set_manager_same (s : St) : set_manager (manager s) s = s.
Proof. destruct s as [hs [w ys]]. reflexivity. Qed.

(** X19.  A stream gives back what it took.  On a registered name, with
    nobody else using the manager meanwhile, a stream that ends, by
    running out, by a failure of the queue or by the consumer closing it,
    leaves the reference count, the registry and the handler list of the
    service as it found them.  What it has given out is a first part of
    the items of the queue.  [EOFError], [OSError] and
    [ServiceStoppedError] end it silently; the only exceptions that leave
    it are the exit of a consumer that closes it and another failure of
    the queue, and none comes from the clean-up. *)
Theorem stream_gives_back (name : string) (o : ObjId) (r : Z) (h : Handler)
    (turns : list Turn) (s : St) :
  PyDict.get name (svcs (manager s)) = Some o ->
  PyDict.get name (refs (manager s)) = Some r ->
  0 <= r ->
  ~ In h (handlers s) ->
  fst (stream name h turns s) <> Blocked ->
  svcs (manager (snd (stream name h turns s))) = svcs (manager s) /\
  refs (manager (snd (stream name h turns s))) = refs (manager s) /\
  handlers (snd (stream name h turns s)) = handlers s /\
  (exists k, yielded (rest (snd (stream name h turns s)))
             = yielded (rest s) ++ firstn k (items_of turns)) /\
  (forall e, fst (stream name h turns s) = Raise e ->
     isinstance e EOFError = false /\
     isinstance e OSError = false /\
     isinstance e ServiceStoppedError = false /\
     ((e = BaseException /\ exists tn, In tn turns /\ closes tn = true) \/
      (exists tn, In tn turns /\ got tn = Fails e))).
Proof.
  intros Hs Hr Hr0 Hfresh.
  pose proof (borrowed_pump name o r h turns s Hs Hr Hr0 Hfresh) as Hb.
  cbv zeta in Hb. unfold stream, try_excepts.
  destruct (borrow name (fun svc => tap h (pump svc turns)) s) as [[[]|e|] s1];
    cbn [fst snd] in *.
  - intros _. destruct Hb as (H1 & H2 & H3 & H4 & _); [discriminate|].
    split; [exact H1|]. split; [exact H2|]. split; [exact H3|].
    split; [exact H4 | discriminate].
  - destruct Hb as (H1 & H2 & H3 & H4 & H5); [discriminate|].
    cbn [dispatch].
    destruct (isinstance e EOFError) eqn:E1;
      [|destruct (isinstance e OSError) eqn:E2;
        [|destruct (isinstance e ServiceStoppedError) eqn:E3]];
      unfold ret, raise; cbn [fst snd]; intros _;
      (split; [exact H1|]); (split; [exact H2|]); (split; [exact H3|]);
      (split; [exact H4|]); try discriminate.
    intros e' He'. inversion He'; subst e'.
    split; [exact E1|]. split; [exact E2|]. split; [exact E3|].
    destruct (H5 e eq_refl) as [-> | H]; [discriminate E3 | exact H].
  - intros H. exfalso. apply H. reflexivity.
Qed.

Lemma stream_gives_back_witness :
  fst (stream "cam" 3%nat two_items (mk [] (mkRest ready_world [])))
  = Raise BaseException /\
  yielded (rest (snd (stream "cam" 3%nat two_items (mk [] (mkRest ready_world [])))))
  = [11%nat; 12%nat] /\
  refs (manager (snd (stream "cam" 3%nat two_items (mk [] (mkRest ready_world [])))))
  = [("cam"%string, 1)] /\
  handlers (snd (stream "cam" 3%nat two_items (mk [] (mkRest ready_world [])))) = [].
Proof.
  destruct (stream_gives_back "cam" 7%nat 1 3%nat two_items
              (mk [] (mkRest ready_world [])))
    as (_ & Hr & Hh & _ & _).
  - reflexivity.
  - reflexivity.
  - lia.
  - simpl. tauto.
  - vm_compute. discriminate.
  - split; [reflexivity|]. split; [reflexivity|]. split; [exact Hr | exact Hh].
Defined.

(** X20.  A stream that cannot start.  For a name the manager does not
    know, the [KeyError] of [get] leaves the generator: it is not among the
    exceptions that [stream] takes for the end of the stream.  When the
    service is stopped while [get] waits for it, the stream just ends: no
    exception, nothing given out, no handler added. *)
Theorem stream_that_cannot_start (name : string) (h : Handler)
    (turns : list Turn) (s : St) :
  (PyDict.get name (svcs (manager s)) = None ->
   stream name h turns s = (Raise KeyError, s)) /\
  (fst (get name true (manager s)) = Raise ServiceStoppedError ->
   fst (stream name h turns s) = Ret tt /\
   yielded (rest (snd (stream name h turns s))) = yielded (rest s) /\
   handlers (snd (stream name h turns s)) = handlers s /\
   manager (snd (stream name h turns s)) = snd (get name true (manager s))).
Proof.
  unfold stream, try_excepts, borrow. rewrite bind_at, on_manager_at. split.
  - intros Hn. rewrite (get_unknown name true (manager s) Hn). cbn [fst snd].
    rewrite set_manager_same. reflexivity.
  - intros Hg. rewrite Hg. cbn [fst snd]. destruct s as [hs [w ys]].
    split; [reflexivity|]. split; [reflexivity|]. split; reflexivity.
Qed.

Lemma stream_that_cannot_start_witness :
  stream "door" 3%nat two_items (mk [] (mkRest ready_world []))
  = (Raise KeyError, mk [] (mkRest ready_world [])) /\
  fst (stream "cam" 3%nat two_items (mk [] (mkRest dead_world []))) = Ret tt.
Proof.
  split.
  - apply (stream_that_cannot_start "door" 3%nat two_items
             (mk [] (mkRest ready_world []))).
    reflexivity.
  - apply (stream_that_cannot_start "cam" 3%nat two_items
             (mk [] (mkRest dead_world []))).
    reflexivity.
Defined.

End StreamFacts.

(* ------------------------------------------------------------------ *)
(** ** The update notifier and the MQTT queue *)

Section NotifierQueueFacts.
Import UpdateNotifierService.

Lemma on_app_svc_at {A} (m : Prog ServiceManager.World A) (s : Mqtt) :
  on_app_svc m s
  = (fst (m (Handlers.rest s)),
     Handlers.mk (Handlers.handlers s) (snd (m (Handlers.rest s)))).
Proof. unfold on_app_svc. destruct (m (Handlers.rest s)). reflexivity. Qed.

(** X21.  Starting and stopping the notifier is a round trip on the MQTT
    queue.  With the queue registered, [worker_start] returns, holds one
    more reference and has its handler at the end of the list;
    [worker_stop] then takes the handler off and gives the reference back,
    so that the count, the registry and the handlers are what they were.
    A [worker_stop] that fails to write the statistics changes nothing, so
    the retry is safe; one that does not find its handler on the list
    raises [ValueError] before it gives the reference back, and changes
    nothing either, so no retry succeeds. *)
Theorem notifier_start_stop (o : ObjId) (r : Z) (h : Handlers.Handler)
    (s : Mqtt) :
  PyDict.get "mqttqueue"%string (ServiceManager.svcs (Handlers.rest s)) = Some o ->
  PyDict.get "mqttqueue"%string (ServiceManager.refs (Handlers.rest s)) = Some r ->
  0 <= r ->
  ~ In h (Handlers.handlers s) ->
  let s1 := snd (worker_start h s) in
  let s2 := snd (worker_stop h (Ret tt) s1) in
  (fst (worker_start h s) = Ret tt /\
   Handlers.handlers s1 = Handlers.handlers s ++ [h] /\
   ServiceManager.refs (Handlers.rest s1)
   = PyDict.set "mqttqueue"%string (r + 1) (ServiceManager.refs (Handlers.rest s))) /\
  (fst (worker_stop h (Ret tt) s1) = Ret tt /\
   Handlers.handlers s2 = Handlers.handlers s /\
   ServiceManager.refs (Handlers.rest s2) = ServiceManager.refs (Handlers.rest s) /\
   ServiceManager.svcs (Handlers.rest s2) = ServiceManager.svcs (Handlers.rest s)) /\
  (forall e, worker_stop h (Raise e) s1 = (Raise e, s1)) /\
  (forall save, save <> Blocked ->
                exists e, worker_stop h save s = (Raise e, s)).
Proof.
  intros Hs Hr Hr0 Hfresh.
  destruct (get_unready "mqttqueue"%string o r (Handlers.rest s) Hs Hr)
    as (Hgo & Hgs & Hgr & _).
  assert (Hstart : worker_start h s
                   = (Ret tt,
                      Handlers.mk (Handlers.handlers s ++ [h])
                        (snd (ServiceManager.get "mqttqueue"%string false (Handlers.rest s))))).
  { unfold worker_start. rewrite bind_at, on_app_svc_at, Hgo. reflexivity. }
  cbv zeta. rewrite Hstart. cbn [fst snd Handlers.handlers Handlers.rest].
  set (w1 := snd (ServiceManager.get "mqttqueue"%string false (Handlers.rest s))) in *.
  split; [|split; [|split]].
  - split; [reflexivity|]. split; [reflexivity | exact Hgr].
  - destruct (put_after_get "mqttqueue"%string o r (Handlers.rest s) w1 Hs Hr Hr0 Hgs Hgr)
      as (Hpo & Hps & Hpr).
    unfold worker_stop. rewrite bind_at. cbv iota. rewrite bind_at.
    unfold Handlers.handlers_remove. rewrite bind_at.
    match goal with |- context [read ?x] => change (read x) with (Ret x, x) end.
    cbv iota. cbn [Handlers.handlers].
    rewrite remove_appended, (remove_absent h _ Hfresh), modify_at.
    rewrite on_app_svc_at. cbn [Handlers.rest Handlers.handlers Handlers.set_handlers fst snd].
    split; [exact Hpo|]. split; [reflexivity|]. split; [exact Hpr | exact Hps].
  - intros e. reflexivity.
  - intros save Hsave. unfold worker_stop. rewrite bind_at.
    destruct save as [[]|e|]; [|exists e; reflexivity|congruence].
    rewrite bind_at. unfold Handlers.handlers_remove. rewrite bind_at.
    change (read s) with (Ret s, s). cbv iota.
    rewrite (remove_absent h _ Hfresh). exists ValueError. reflexivity.
Qed.

Lemma notifier_start_stop_witness :
  fst (worker_start 6%nat mqtt_idle) = Ret tt /\
  Handlers.handlers
    (snd (worker_stop 6%nat (Ret tt) (snd (worker_start 6%nat mqtt_idle))))
  = [5%nat] /\
  ServiceManager.refs
    (Handlers.rest
       (snd (worker_stop 6%nat (Ret tt) (snd (worker_start 6%nat mqtt_idle)))))
  = [("mqttqueue"%string, 0)].
Proof.
  destruct (notifier_start_stop 2%nat 0 6%nat mqtt_idle)
    as ((Ho & _) & (_ & Hh & Hr & _) & _).
  - reflexivity.
  - reflexivity.
  - lia.
  - simpl. intuition discriminate.
  - split; [exact Ho|]. split; [exact Hh | exact Hr].
Defined.

End NotifierQueueFacts.
